(** * MediaGuard3: trust aggregation and fingerprint verification

    A shallow embedding of [modules/trust_aggregator.py],
    [modules/verification.py] and of the modules around them.

    Conventions of the embedding.
    - Python [float] and [int] values are exact rationals ([Q]); equality of
      numeric results is therefore stated with [==] ([Qeq]).  The source
      computes in binary floating point: where a property compares a
      computed number with an exact expression, its statement allows the
      computed number to differ from the exact one by [Spec.fp_slack].
    - A Python [str] of hashes, keys and labels is a [string] with one
      character per code point below 256; [len], [zip] and [==] act on its
      characters, [lower] maps the letters A-Z and the capital letters of
      Latin-1 to their small letters.  A text whose characters are tested
      for whitespace is the list of its code points ([PyText.str]).
    - A Python [dict] with string keys is a [gmap string _]; [Optional] is
      [option]; [d.get(k, default)] is a lookup with a default.
    - Operations that can raise ([/], ordering and arithmetic on a value that
      is not a number, number formatting, [d[k]]) return a [result], and a
      function that uses them is written in the error monad.  [try/except]
      is a match on the [result]. *)

From Stdlib Require Import QArith Qabs Qround ZArith String Ascii List.
From Stdlib Require Import DecimalString Lia Lqa Permutation.
From stdpp Require Import gmap strings.

Local Open Scope Q_scope.

(** ** Python primitives *)

Module Py.

Inductive exn : Type :=
| TypeError
| ValueError
| ZeroDivisionError
| KeyError.

Inductive result (A : Type) : Type :=
| Ok (a : A)
| Raise (e : exn).

Arguments Ok {A} a.
Arguments Raise {A} e.

#[global] Instance result_ret : MRet result := fun A a => Ok a.

#[global] Instance result_bind : MBind result := fun A B k m =>
  match m with
  | Ok a => k a
  | Raise e => Raise e
  end.

Definition returns {A : Type} (m : result A) (P : A -> Prop) : Prop :=
  match m with
  | Ok a => P a
  | Raise _ => False
  end.

(** Values that the analysis modules put in their result dictionaries. *)
Inductive value : Type :=
| VNone
| VNum (q : Q)
| VStr (s : string)
| VOther.

Definition Qlt_bool (x y : Q) : bool := negb (Qle_bool y x).

(** [a / b] on numbers. *)
Definition truediv (a b : Q) : result Q :=
  if Qeq_bool b 0 then Raise ZeroDivisionError else Ok (a / b).

(** [max(a, b)]: the first argument wins unless the second is larger. *)
Definition max2 (a b : Q) : Q := if Qlt_bool a b then b else a.

Definition of_nat (n : nat) : Q := inject_Z (Z.of_nat n).

(** Truth value of an [Optional[str]]: [None] and the empty string are
    false. *)
Definition truthy (h : option string) : bool :=
  match h with
  | Some s => negb (String.eqb s "")
  | None => false
  end.

(** [c.lower()] on a character below 256: the capital letters are A-Z and
    the Latin-1 letters from 192 to 222, the multiplication sign 215 apart;
    each has its small letter 32 places further. *)
Definition lower_ascii (c : ascii) : ascii :=
  let n := N_of_ascii c in
  if (((65 <=? n) && (n <=? 90))
      || ((192 <=? n) && (n <=? 222) && negb (n =? 215)))%N
  then ascii_of_N (n + 32) else c.

Definition lower (s : string) : string :=
  string_of_list_ascii (map lower_ascii (list_ascii_of_string s)).

(** [zip(s1, s2)] on the characters of two strings. *)
Definition zip (s1 s2 : string) : list (ascii * ascii) :=
  combine (list_ascii_of_string s1) (list_ascii_of_string s2).

(** [sum(c1 != c2 for c1, c2 in l)] and [sum(c1 == c2 for c1, c2 in l)]. *)
Definition count_ne (l : list (ascii * ascii)) : nat :=
  length (List.filter (fun p => negb (Ascii.eqb (fst p) (snd p))) l).

Definition count_eq (l : list (ascii * ascii)) : nat :=
  length (List.filter (fun p => Ascii.eqb (fst p) (snd p)) l).

(** Nearest integer, ties to the even one. *)
Definition round_half_even (q : Q) : Z :=
  let f := Qfloor q in
  match Qcompare (2 * (q - inject_Z f)) 1 with
  | Lt => f
  | Gt => (f + 1)%Z
  | Eq => if Z.even f then f else (f + 1)%Z
  end.

(** [round(q, 1)]. *)
Definition round1 (q : Q) : Q := inject_Z (round_half_even (q * 10)) / 10.

Definition digits (n : Z) : string :=
  NilZero.string_of_uint (N.to_uint (Z.to_N n)).

(** [f"{q:.1f}"]. *)
Definition format_1f (q : Q) : string :=
  let n := Z.abs (round_half_even (q * 10)) in
  ((if Qlt_bool q 0 then "-" else "")
     ++ digits (n / 10) ++ "." ++ digits (n mod 10))%string.

(** [f"{h}"] for an [Optional[str]]. *)
Definition str_of (h : option string) : string :=
  match h with
  | Some s => s
  | None => "None"
  end.

End Py.

Import Py.



(** ** modules/verification.py *)

Module VerificationEngine.

(** A fingerprint dictionary: hash name to [Optional[str]]. *)
Abbreviation Fingerprint := (gmap string (option string)).

(** [fp.get(k)]: [None] when the key is missing. *)
Definition get (fp : Fingerprint) (k : string) : option string :=
  match fp !! k with
  | Some h => h
  | None => None
  end.

(** A registry entry, as the application appends it to
    [protected_fingerprints]; [fingerprint = None] is an entry without the
    ['fingerprint'] key. *)
Record Protected : Type := {
  fingerprint : option Fingerprint;
  timestamp : option string;
  protection_flag : bool
}.

Record MatchDecision : Type := {
  match_found : bool;
  match_type : option string;
  similarity : Q;
  matched_fingerprint : option Protected;
  details : list (string * string)
}.

Definition exact_match_threshold : Q := 1.
Definition perceptual_similarity_threshold : Q := 85 # 100.
Definition face_match_threshold : Q := 90 # 100.

Definition _check_exact_match (hash1 hash2 : option string) : bool :=
  match hash1, hash2 with
  | Some h1, Some h2 =>
      if negb (truthy hash1) || negb (truthy hash2) then false
      else String.eqb (lower h1) (lower h2)
  | _, _ => false
  end.

Definition _check_perceptual_similarity (hash1 hash2 : option string)
  : result Q :=
  match hash1, hash2 with
  | Some h1, Some h2 =>
      if negb (truthy hash1) || negb (truthy hash2) then Ok 0
      else
        (* the [try] block: [Some] is a [return] inside it *)
        let attempt : result (option Q) :=
          if (String.length h1 =? 16)%nat && (String.length h2 =? 16)%nat
          then
            let hamming := count_ne (zip h1 h2) in
            r ← truediv (of_nat hamming) (of_nat (String.length h1));
            Ok (Some (max2 0 ((1 - r) * 100)))
          else Ok None in
        match attempt with
        | Ok (Some sim) => Ok sim
        | Ok None | Raise _ =>
            if String.eqb h1 h2 then Ok 100
            else
              let common_chars := count_eq (zip h1 h2) in
              r ← truediv (of_nat common_chars)
                    (of_nat (Nat.max (String.length h1) (String.length h2)));
              Ok (r * 100)
        end
  | _, _ => Ok 0
  end.

Definition _check_face_similarity (hash1 hash2 : option string) : result Q :=
  match hash1, hash2 with
  | Some h1, Some h2 =>
      if negb (truthy hash1) || negb (truthy hash2) then Ok 0
      else if String.eqb h1 h2 then Ok 100
      else
        let common_chars := count_eq (zip h1 h2) in
        r ← truediv (of_nat common_chars)
              (of_nat (Nat.max (String.length h1) (String.length h2)));
        Ok (r * 100)
  | _, _ => Ok 0
  end.

(** The loop variables [best_match], [best_similarity], [best_match_type]. *)
Record Best : Type := {
  best_match : option Protected;
  best_similarity : Q;
  best_match_type : option string
}.

Definition Best_init : Best :=
  {| best_match := None; best_similarity := 0; best_match_type := None |}.

(** [if sim > best_similarity: ...] *)
Definition update (b : Best) (sim : Q) (protected : Protected) (ty : string)
  : Best :=
  if Qlt_bool (best_similarity b) sim
  then {| best_match := Some protected;
          best_similarity := sim;
          best_match_type := Some ty |}
  else b.

Definition exact_decision (protected : Protected) : MatchDecision :=
  {| match_found := true;
     match_type := Some "exact"%string;
     similarity := 100;
     matched_fingerprint := Some protected;
     details := [("method", "SHA-256 cryptographic hash match");
                 ("confidence", "100%")]%string |}.

(** The [for] loop: [inl d] is the [return d] inside the loop, [inr b] the
    loop variables when the loop ends. *)
Fixpoint scan (fingerprint_data : Fingerprint)
  (protected_fingerprints : list Protected) (b : Best)
  : result (MatchDecision + Best) :=
  match protected_fingerprints with
  | [] => Ok (inr b)
  | protected :: rest =>
      let protected_fp := default ∅ (fingerprint protected) in
      let sha256_match :=
        _check_exact_match (get fingerprint_data "sha256")
          (get protected_fp "sha256") in
      if sha256_match then Ok (inl (exact_decision protected))
      else
        perceptual_sim ←
          _check_perceptual_similarity (get fingerprint_data "perceptual_hash")
            (get protected_fp "perceptual_hash");
        let b := update b perceptual_sim protected "perceptual" in
        b ← (if truthy (get fingerprint_data "face_embedding_hash")
                && truthy (get protected_fp "face_embedding_hash")
             then
               face_sim ←
                 _check_face_similarity
                   (get fingerprint_data "face_embedding_hash")
                   (get protected_fp "face_embedding_hash");
               Ok (update b face_sim protected "face")
             else Ok b);
        scan fingerprint_data rest b
  end.

Definition verify (fingerprint_data : Fingerprint)
  (protected_fingerprints : list Protected) : result MatchDecision :=
  match protected_fingerprints with
  | [] =>
      Ok {| match_found := false;
            match_type := None;
            similarity := 0;
            matched_fingerprint := None;
            details :=
              [("message", "No protected fingerprints in database")]%string |}
  | _ =>
      r ← scan fingerprint_data protected_fingerprints Best_init;
      match r with
      | inl d => Ok d
      | inr b =>
          if Qle_bool (perceptual_similarity_threshold * 100)
               (best_similarity b)
          then
            Ok {| match_found := true;
                  match_type := best_match_type b;
                  similarity := best_similarity b;
                  matched_fingerprint := best_match b;
                  details :=
                    [("method",
                      str_of (best_match_type b) ++ " similarity match");
                     ("confidence",
                      format_1f (best_similarity b) ++ "%")]%string |}
          else
            Ok {| match_found := false;
                  match_type := None;
                  similarity := best_similarity b;
                  matched_fingerprint := None;
                  details :=
                    [("message", "No significant match found");
                     ("highest_similarity",
                      format_1f (best_similarity b) ++ "%")]%string |}
      end
  end.

End VerificationEngine.

(** ** modules/trust_aggregator.py *)

Module TrustAggregator.

(** A module result: a dictionary from field name to value. *)
Abbreviation Dict := (gmap string value).

(** Truth value of an [Optional[Dict]]: [None] and the empty dictionary are
    false. *)
Definition dict_truthy (d : option Dict) : bool :=
  match d with
  | Some m => negb (size m =? 0)%nat
  | None => false
  end.

(** [d.get(k, dflt)], on a dictionary already tested to be present. *)
Definition get (d : option Dict) (k : string) (dflt : value) : value :=
  default dflt (default ∅ d !! k).

(** [d[k]] *)
Definition getitem (d : gmap string Q) (k : string) : result Q :=
  match d !! k with
  | Some v => Ok v
  | None => Raise KeyError
  end.

Definition as_num (v : value) : result Q :=
  match v with
  | VNum q => Ok q
  | _ => Raise TypeError
  end.

(** [v == s] for a string literal [s]. *)
Definition eq_str (v : value) (s : string) : bool :=
  match v with
  | VStr s' => String.eqb s' s
  | _ => false
  end.

(** [v > c] for a numeric literal [c]. *)
Definition gt (v : value) (c : Q) : result bool :=
  q ← as_num v; Ok (Qlt_bool c q).

(** [f"{v:.1f}"] *)
Definition format_value_1f (v : value) : result string :=
  match v with
  | VNum q => Ok (format_1f q)
  | VStr _ => Raise ValueError
  | _ => Raise TypeError
  end.

(** [sum(l)] on numbers, and on values. *)
Definition sum (l : list Q) : Q := fold_left Qplus l 0.

Fixpoint sum_values_from (acc : Q) (l : list value) : result Q :=
  match l with
  | [] => Ok acc
  | v :: l' => q ← as_num v; sum_values_from (acc + q) l'
  end.

Definition sum_values (l : list value) : result Q := sum_values_from 0 l.

Record TrustVerdict : Type := {
  overall_trust_risk : Q;
  threat_category : string;
  confidence : Q;
  module_results : gmap string Dict;
  explanation : string;
  recommendations : list string
}.

Definition weights : gmap string Q :=
  {[ "image_analysis"%string := 4 # 10;
     "fake_news"%string := 4 # 10;
     "sensitive_content"%string := 2 # 10 ]}.

(** [d and d.get('classification') == 'deepfake'] *)
Definition is_deepfake (image_analysis : option Dict) : bool :=
  dict_truthy image_analysis
  && eq_str (get image_analysis "classification" VNone) "deepfake".

(** [d and d.get('fake_news_likelihood', 0) > c] *)
Definition likelihood_gt (fake_news_analysis : option Dict) (c : Q)
  : result bool :=
  if dict_truthy fake_news_analysis
  then gt (get fake_news_analysis "fake_news_likelihood" (VNum 0)) c
  else Ok false.

Definition _determine_threat_category (overall_risk : Q)
  (image_analysis fake_news_analysis : option Dict) : result string :=
  if Qle_bool 65 overall_risk then
    if is_deepfake image_analysis then
      b ← likelihood_gt fake_news_analysis 50;
      if b : bool then Ok "Severe: Manipulated Media + Misinformation"%string
      else Ok "High: Manipulated Media"%string
    else
      b ← likelihood_gt fake_news_analysis 50;
      if b : bool then Ok "High: Misinformation"%string
      else Ok "High: Multiple Risk Factors"%string
  else if Qle_bool 40 overall_risk then
    if is_deepfake image_analysis then
      Ok "Medium: Potential Media Manipulation"%string
    else
      b ← likelihood_gt fake_news_analysis 40;
      if b : bool then Ok "Medium: Potential Misinformation"%string
      else Ok "Medium: Moderate Risk"%string
  else if Qle_bool 30 overall_risk then
    Ok "Low-Medium: Some Concerns"%string
  else
    Ok "Low: Generally Trustworthy"%string.

Definition _generate_recommendations (overall_risk : Q)
  (threat_category : string)
  (image_analysis fake_news_analysis : option Dict) : result (list string) :=
  let recommendations : list string := [] in
  let recommendations :=
    if Qle_bool 70 overall_risk then
      recommendations ++
        ["⚠️ **High Risk**: Exercise extreme caution with this content";
         "🔍 Verify information through multiple independent sources";
         "🚫 Do not share without verification"]%string
    else if Qle_bool 50 overall_risk then
      recommendations ++
        ["⚠️ **Moderate Risk**: Verify before sharing";
         "📚 Check fact-checking websites"]%string
    else recommendations in
  let recommendations :=
    if is_deepfake image_analysis then
      recommendations ++
        ["🖼️ Image shows signs of manipulation - verify source"]%string
    else recommendations in
  b ← likelihood_gt fake_news_analysis 60;
  let recommendations :=
    if b : bool then
      recommendations ++
        ["📰 Text contains indicators of misinformation";
         "✅ Cross-reference with credible news sources"]%string
    else recommendations in
  let recommendations :=
    if Qlt_bool overall_risk 30 then
      recommendations ++
        ["✅ Content appears generally trustworthy";
         "📝 Still recommended to verify critical claims"]%string
    else recommendations in
  let recommendations :=
    match recommendations with
    | [] => ["ℹ️ Review analysis results for specific concerns"]%string
    | _ => recommendations
    end in
  Ok recommendations.

(** The accumulators [module_results], [risk_scores], [explanations]. *)
Record Acc : Type := {
  acc_module_results : gmap string Dict;
  acc_risk_scores : list (string * Q * Q);
  acc_explanations : list string
}.

(** Lines 58-82 of [aggregate]: the image channel. *)
Definition process_image (image_analysis : option Dict) (a : Acc)
  : result Acc :=
  if dict_truthy image_analysis then
    let classification :=
      get image_analysis "classification" (VStr "unknown") in
    let confidence := get image_analysis "confidence" (VNum 0) in
    '(image_risk, clause) ←
      (if eq_str classification "deepfake" then
         c ← format_value_1f confidence;
         Ok (80, "Image manipulation detected (" ++ c ++ "% confidence)")
       else if eq_str classification "sensitive" then
         c ← format_value_1f confidence;
         Ok (40, "Sensitive content detected (" ++ c ++ "% confidence)")
       else if eq_str classification "real_safe" then
         c ← format_value_1f confidence;
         Ok (20, "Image appears authentic (" ++ c ++ "% confidence)")
       else Ok (50, "Image analysis inconclusive"))%string;
    w ← getitem weights "image_analysis";
    Ok {| acc_module_results :=
            <["image"%string :=
                {[ "risk"%string := VNum image_risk;
                   "classification"%string := classification;
                   "confidence"%string := confidence ]}]>
              (acc_module_results a);
          acc_risk_scores :=
            acc_risk_scores a ++ [("image"%string, image_risk, w)];
          acc_explanations := acc_explanations a ++ [clause] |}
  else Ok a.

(** Lines 84-106 of [aggregate]: the text channel. *)
Definition process_fake_news (fake_news_analysis : option Dict) (a : Acc)
  : result Acc :=
  if dict_truthy fake_news_analysis then
    let fake_news_likelihood :=
      get fake_news_analysis "fake_news_likelihood" (VNum 0) in
    let credibility_score :=
      get fake_news_analysis "credibility_score" (VNum 50) in
    (* [fake_news_likelihood > 50] raises unless it is a number *)
    fake_news_risk ← as_num fake_news_likelihood;
    clause ←
      (if Qlt_bool 50 fake_news_risk then
         let prefix := if Qlt_bool 75 fake_news_risk
                       then "High" else "Moderate" in
         Ok (prefix ++ " fake news likelihood ("
               ++ format_1f fake_news_risk ++ "%)")
       else
         b ← gt credibility_score 60;
         if b : bool then
           c ← format_value_1f credibility_score;
           Ok ("Content appears credible (" ++ c ++ "%)")
         else Ok "Text analysis results are uncertain")%string;
    w ← getitem weights "fake_news";
    Ok {| acc_module_results :=
            <["fake_news"%string :=
                {[ "risk"%string := fake_news_likelihood;
                   "fake_news_likelihood"%string := fake_news_likelihood;
                   "credibility_score"%string := credibility_score ]}]>
              (acc_module_results a);
          acc_risk_scores :=
            acc_risk_scores a ++ [("fake_news"%string, fake_news_risk, w)];
          acc_explanations := acc_explanations a ++ [clause] |}
  else Ok a.

(** Lines 108-121 of [aggregate]: the content-safety channel. *)
Definition process_sensitive (sensitive_content : option Dict) (a : Acc)
  : result Acc :=
  if dict_truthy sensitive_content then
    let sensitive_score := get sensitive_content "sensitive_score" (VNum 0) in
    (* [sensitive_score > 50] raises unless it is a number *)
    sensitive_risk ← as_num sensitive_score;
    let explanations :=
      if Qlt_bool 50 sensitive_risk then
        acc_explanations a ++
          ["Sensitive content detected ("
             ++ format_1f sensitive_risk ++ "%)"]%string
      else acc_explanations a in
    w ← getitem weights "sensitive_content";
    Ok {| acc_module_results :=
            <["sensitive"%string :=
                {[ "risk"%string := sensitive_score;
                   "score"%string := sensitive_score ]}]>
              (acc_module_results a);
          acc_risk_scores :=
            acc_risk_scores a
              ++ [("sensitive"%string, sensitive_risk, w)];
          acc_explanations := explanations |}
  else Ok a.

(** Lines 123-129 of [aggregate]. *)
Definition weighted_risk (risk_scores : list (string * Q * Q)) : result Q :=
  match risk_scores with
  | [] => Ok 50
  | _ =>
      let weighted_sum :=
        sum (map (fun '(_, risk, weight) => risk * weight) risk_scores) in
      let total_weight :=
        sum (map (fun '(_, _, weight) => weight) risk_scores) in
      if Qlt_bool 0 total_weight then truediv weighted_sum total_weight
      else Ok 50
  end.

(** Lines 138-147 of [aggregate]. *)
Definition overall_confidence_of
  (image_analysis fake_news_analysis : option Dict) : result Q :=
  let confidences : list value := [] in
  let confidences :=
    if dict_truthy image_analysis
    then confidences ++ [get image_analysis "confidence" (VNum 0)]
    else confidences in
  confidences ←
    (if dict_truthy fake_news_analysis then
       uncertain ← as_num (get fake_news_analysis "uncertain" (VNum 50));
       Ok (confidences ++ [VNum (100 - uncertain)])
     else Ok confidences);
  match confidences with
  | [] => Ok 50
  | _ =>
      total ← sum_values confidences;
      truediv total (of_nat (length confidences))
  end.

Definition aggregate
  (image_analysis fake_news_analysis sensitive_content : option Dict)
  : result TrustVerdict :=
  let a := {| acc_module_results := ∅;
              acc_risk_scores := [];
              acc_explanations := [] |} in
  a ← process_image image_analysis a;
  a ← process_fake_news fake_news_analysis a;
  a ← process_sensitive sensitive_content a;
  overall_trust_risk ← weighted_risk (acc_risk_scores a);
  threat_category ←
    _determine_threat_category overall_trust_risk
      image_analysis fake_news_analysis;
  overall_confidence ←
    overall_confidence_of image_analysis fake_news_analysis;
  recommendations ←
    _generate_recommendations overall_trust_risk threat_category
      image_analysis fake_news_analysis;
  Ok {| overall_trust_risk := round1 overall_trust_risk;
        threat_category := threat_category;
        confidence := round1 overall_confidence;
        module_results := acc_module_results a;
        explanation :=
          match acc_explanations a with
          | [] => "No analysis data available"%string
          | _ => String.concat " | " (acc_explanations a)
          end;
        recommendations := recommendations |}.

End TrustAggregator.

(** ** The quantities the specification names *)

Module Spec.

(** Number of positions, among those both strings have, where the symbols
    differ. *)
Fixpoint mismatched_symbol_count (s1 s2 : string) : nat :=
  match s1, s2 with
  | String a r1, String b r2 =>
      ((if Ascii.eqb a b then 0 else 1) + mismatched_symbol_count r1 r2)%nat
  | _, _ => 0%nat
  end.

(** Number of positions, among those both strings have, where the symbols
    agree. *)
Fixpoint matching_position_count (s1 s2 : string) : nat :=
  match s1, s2 with
  | String a r1, String b r2 =>
      ((if Ascii.eqb a b then 1 else 0) + matching_position_count r1 r2)%nat
  | _, _ => 0%nat
  end.

(** A hash is present when it is a non-empty string. *)
Definition present (h : option string) : Prop :=
  exists s, h = Some s /\ s <> ""%string.

(** The fingerprint dictionary of a registry entry,
    [protected.get('fingerprint', {})]. *)
Definition entry_fp (e : VerificationEngine.Protected)
  : VerificationEngine.Fingerprint :=
  default ∅ (VerificationEngine.fingerprint e).

Section Comparisons.

Import VerificationEngine.

Variable cand : Fingerprint.

(** The exact hashes of the candidate and of the entry are both stored and
    equal up to the case of their letters. *)
Definition exact_hash_equal (e : Protected) : Prop :=
  exists h1 h2,
    get cand "sha256" = Some h1 /\ get (entry_fp e) "sha256" = Some h2
    /\ lower h1 = lower h2.

(** The same, for a non-empty hash. *)
Definition exact_hash_match (e : Protected) : Prop :=
  exists h1 h2,
    get cand "sha256" = Some h1 /\ get (entry_fp e) "sha256" = Some h2
    /\ h1 <> ""%string /\ lower h1 = lower h2.

(** The test the scan makes on an entry. *)
Definition exact (e : Protected) : bool :=
  _check_exact_match (get cand "sha256") (get (entry_fp e) "sha256").

(** Value of a similarity computation, 0 if it raised. *)
Definition value_of (r : result Q) : Q :=
  match r with
  | Ok q => q
  | Raise _ => 0
  end.

Definition perceptual_sim (e : Protected) : Q :=
  value_of (_check_perceptual_similarity (get cand "perceptual_hash")
              (get (entry_fp e) "perceptual_hash")).

Definition face_sim (e : Protected) : Q :=
  value_of (_check_face_similarity (get cand "face_embedding_hash")
              (get (entry_fp e) "face_embedding_hash")).

(** Both sides carry a biometric hash. *)
Definition face_compared (e : Protected) : bool :=
  truthy (get cand "face_embedding_hash")
  && truthy (get (entry_fp e) "face_embedding_hash").

(** One comparison of the scan: its similarity, the metric, the entry. *)
Record Comparison : Type := {
  c_sim : Q;
  c_type : string;
  c_entry : Protected
}.

(** The comparisons of a scan without exact match, in the order in which
    the scan makes them. *)
Definition comparisons_of (e : Protected) : list Comparison :=
  {| c_sim := perceptual_sim e; c_type := "perceptual"; c_entry := e |}
  :: (if face_compared e
      then [{| c_sim := face_sim e; c_type := "face"; c_entry := e |}]
      else []).

Definition comparisons (reg : list Protected) : list Comparison :=
  flat_map comparisons_of reg.

(** [b] is the best similarity of a scan: no comparison exceeds it, and it
    is the initial 0 or the similarity of one of the comparisons. *)
Definition best_of (reg : list Protected) (b : Q) : Prop :=
  (forall c, In c (comparisons reg) -> c_sim c <= b)
  /\ (b = 0 \/ exists c, In c (comparisons reg) /\ b = c_sim c).

(** The loop variables after comparison [c] became the best one. *)
Definition tracked (c : Comparison) : Best :=
  {| best_match := Some (c_entry c);
     best_similarity := c_sim c;
     best_match_type := Some (c_type c) |}.

(** The loop variables after a list of comparisons. *)
Definition track (cs : list Comparison) (b : Best) : Best :=
  fold_left (fun b c => update b (c_sim c) (c_entry c) (c_type c)) cs b.

End Comparisons.

Section Channels.

Import TrustAggregator.

(** The field [k] of a module result holds a number, or is missing. *)
Definition numeric (d : option Dict) (k : string) : Prop :=
  match default ∅ d !! k with
  | Some (VNum _) | None => True
  | Some _ => False
  end.

(** The number in field [k], [dflt] when the field is missing. *)
Definition num_field (d : option Dict) (k : string) (dflt : Q) : Q :=
  match default ∅ d !! k with
  | Some (VNum q) => q
  | _ => dflt
  end.

(** Image classification to risk: deepfake 80, sensitive 40, real_safe 20,
    anything else 50. *)
Definition image_mapped_risk (image : option Dict) : Q :=
  match default ∅ image !! "classification" with
  | Some (VStr s) =>
      if String.eqb s "deepfake" then 80
      else if String.eqb s "sensitive" then 40
      else if String.eqb s "real_safe" then 20
      else 50
  | _ => 50
  end.

(** The channels that are present, each with its mapped risk and its
    weight. *)
Definition channels (image text safety : option Dict) : list (Q * Q) :=
  (if dict_truthy image then [(image_mapped_risk image, 4 # 10)] else [])
  ++ (if dict_truthy text
      then [(num_field text "fake_news_likelihood" 0, 4 # 10)] else [])
  ++ (if dict_truthy safety
      then [(num_field safety "sensitive_score" 0, 2 # 10)] else []).

(** [Σ] over a list of numbers. *)
Definition total (l : list Q) : Q := fold_right Qplus 0 l.

(** [Σ(risk_i · weight_i) / Σ(weight_i)] *)
Definition weighted_average (l : list (Q * Q)) : Q :=
  total (map (fun rw => fst rw * snd rw) l) / total (map snd l).

(** The overall risk the specification asks for: the weighted average of
    the present channels, 50 when there is none. *)
Definition expected_risk (image text safety : option Dict) : Q :=
  match channels image text safety with
  | [] => 50
  | l => weighted_average l
  end.

(** The accumulators at the start of [aggregate]. *)
Definition Acc_init : Acc :=
  {| acc_module_results := ∅; acc_risk_scores := []; acc_explanations := [] |}.

(** The entries of [risk_scores] without their labels. *)
Definition unlabelled (scores : list (string * Q * Q)) : list (Q * Q) :=
  map (fun x => (snd (fst x), snd x)) scores.

(** The confidences that are available: the image's reported confidence,
    100 minus the text's uncertainty. *)
Definition available_confidences (image text : option Dict) : list Q :=
  (if dict_truthy image then [num_field image "confidence" 0] else [])
  ++ (if dict_truthy text
      then [100 - num_field text "uncertain" 50] else []).

Definition average (l : list Q) : Q := total l / of_nat (length l).

(** The confidence the specification asks for: the average of the
    available confidences, 50 when there is none. *)
Definition expected_confidence (image text : option Dict) : Q :=
  match available_confidences image text with
  | [] => 50
  | l => average l
  end.

(** The image is classified as a deepfake. *)
Definition classified_deepfake (image : option Dict) : Prop :=
  exists d, image = Some d
            /\ d !! "classification" = Some (VStr "deepfake").

(** The text's fake-news likelihood is above [c]. *)
Definition likelihood_above (text : option Dict) (c : Q) : Prop :=
  exists d q, text = Some d
              /\ d !! "fake_news_likelihood" = Some (VNum q) /\ c < q.

(** The numeric fields of the three results hold numbers. *)
Definition well_typed (image text safety : option Dict) : Prop :=
  numeric image "confidence"
  /\ numeric text "fake_news_likelihood"
  /\ numeric text "credibility_score"
  /\ numeric text "uncertain"
  /\ numeric safety "sensitive_score".



(** What a computation on percentages in binary floating point can differ
    from the exact value of the expression it computes. *)
Definition fp_slack : Q := 1 # 1000000000.



End Channels.

End Spec.

(** ** Concrete inputs *)

Module Inputs.

Import VerificationEngine.

Definition fp (sha256 perceptual_hash face_embedding_hash : option string)
  : Fingerprint :=
  {[ "sha256"%string := sha256;
     "perceptual_hash"%string := perceptual_hash;
     "face_embedding_hash"%string := face_embedding_hash ]}.

Definition entry (sha256 perceptual_hash face_embedding_hash : option string)
  : Protected :=
  {| fingerprint := Some (fp sha256 perceptual_hash face_embedding_hash);
     timestamp := None;
     protection_flag := true |}.

(** [c * n] *)
Fixpoint rep (c : ascii) (n : nat) : string :=
  match n with
  | O => EmptyString
  | S n' => String c (rep c n')
  end.

(** A candidate and an entry whose exact hashes are both the empty
    string. *)
Definition cand_empty_sha : Fingerprint := fp (Some ""%string) None None.
Definition entry_empty_sha : Protected := entry (Some ""%string) None None.

(** Perceptual hashes of 20 symbols that agree on 17, and of 1000 symbols
    that agree on 849. *)
Definition cand_20 : Fingerprint :=
  fp (Some "c0"%string) (Some (rep "a" 20)) None.
Definition entry_17_of_20 : Protected :=
  entry (Some "e0"%string) (Some (rep "a" 17 ++ rep "b" 3)%string) None.
Definition cand_1000 : Fingerprint :=
  fp (Some "c0"%string) (Some (rep "a" 1000)) None.
Definition entry_849_of_1000 : Protected :=
  entry (Some "e0"%string) (Some (rep "a" 849 ++ rep "b" 151)%string) None.

(** Entry A has the candidate's perceptual hash, entry B its biometric
    hash. *)
Definition cand_AB : Fingerprint :=
  fp (Some "c0"%string) (Some "0123456789abcdef"%string)
    (Some "f00d"%string).
Definition entry_A : Protected :=
  entry (Some "a0"%string) (Some "0123456789abcdef"%string) None.
Definition entry_B : Protected :=
  entry (Some "b0"%string) (Some "fedcba9876543210"%string)
    (Some "f00d"%string).

(** An entry with both the candidate's perceptual and biometric hash. *)
Definition entry_AB : Protected :=
  entry (Some "ab"%string) (Some "0123456789abcdef"%string)
    (Some "f00d"%string).

(** The perceptual comparison of the candidate with entry A. *)
Definition comparison_A : Spec.Comparison :=
  {| Spec.c_sim := Spec.perceptual_sim cand_AB entry_A;
     Spec.c_type := "perceptual";
     Spec.c_entry := entry_A |}.

(** Module results. *)
Definition text_12_34 : gmap string value :=
  {[ "fake_news_likelihood"%string := VNum (1234 # 100) ]}.

Definition image_90_26 : gmap string value :=
  {[ "classification"%string := VStr "real_safe";
     "confidence"%string := VNum (9026 # 100) ]}.

Definition image_deepfake_90 : gmap string value :=
  {[ "classification"%string := VStr "deepfake";
     "confidence"%string := VNum 90 ]}.



Definition text_64_96 : gmap string value :=
  {[ "fake_news_likelihood"%string := VNum (6496 # 100) ]}.

Definition text_80_20_10 : gmap string value :=
  {[ "fake_news_likelihood"%string := VNum 80;
     "credibility_score"%string := VNum 20;
     "uncertain"%string := VNum 10 ]}.

End Inputs.

(** ** More Python primitives *)

Module PyText.

(** [min(a, b)]: the first argument wins unless the second is smaller. *)
Definition min2 (a b : Q) : Q := if Qlt_bool b a then b else a.

(** [abs(q)] *)
Definition abs (q : Q) : Q := if Qlt_bool q 0 then - q else q.

(** A text: the list of the Unicode code points of a Python [str]. *)
Definition str : Type := list N.

(** The text of an ASCII literal. *)
Definition of_string (s : string) : str :=
  map N_of_ascii (list_ascii_of_string s).

(** [c.isspace()]: tab to carriage return, the separators U+001C to
    U+001F, the space, U+0085, U+00A0, U+1680, U+2000 to U+200A, U+2028,
    U+2029, U+202F, U+205F and U+3000. *)
Definition isspace (c : N) : bool :=
  (((0x09 <=? c) && (c <=? 0x0D))
   || ((0x1C <=? c) && (c <=? 0x20))
   || (c =? 0x85) || (c =? 0xA0) || (c =? 0x1680)
   || ((0x2000 <=? c) && (c <=? 0x200A))
   || (c =? 0x2028) || (c =? 0x2029) || (c =? 0x202F) || (c =? 0x205F)
   || (c =? 0x3000))%N.

Fixpoint lstrip_list (l : str) : str :=
  match l with
  | c :: l' => if isspace c then lstrip_list l' else l
  | [] => []
  end.

(** [s.strip()] *)
Definition strip (s : str) : str :=
  rev (lstrip_list (rev (lstrip_list s))).

(** Truth value of a text. *)
Definition str_truthy (s : str) : bool :=
  match s with
  | [] => false
  | _ :: _ => true
  end.

End PyText.

Import PyText.

(** ** modules/content_safety_engine.py *)

Module ContentSafetyEngine.

Import TrustAggregator.

(** One item of [response.categories_analysis], the answer of the remote
    service. *)
Record CategoryAnalysis : Type := {
  category : string;
  severity : Q;
  confidence : value
}.

(** [analyze], given the answer of the service to the request.  The nested
    [categories] dictionary is an opaque value. *)
Definition analyze (text : str)
  (categories_analysis : list CategoryAnalysis) : option Dict :=
  if negb (str_truthy (strip text)) then None
  else
    let max_severity :=
      fold_left (fun max_severity c => max2 max_severity (severity c))
        categories_analysis 0 in
    Some {[ "source"%string := VStr "Azure Content Safety";
            "max_severity"%string := VNum max_severity;
            "categories"%string := VOther;
            "risk_score"%string :=
              VNum (min2 (max_severity / 7 * 100) 100) ]}.

End ContentSafetyEngine.

(** ** modules/ai_analysis.py *)

Module AIAnalysisEngine.

Import TrustAggregator.

(** The entries of [results] that the classification reads:
    [deepfake_score] is a float, [sensitive_score] comes from the service's
    JSON answer, [foundry_error] is [None] or a message. *)
Record Results : Type := {
  deepfake_score : Q;
  sensitive_score : value;
  foundry_error : option string
}.

Definition _classify_results (results : Results)
  : result (string * Q * string) :=
  let deepfake_score := deepfake_score results in
  let sensitive_score := sensitive_score results in
  if truthy (foundry_error results) then
    Ok ("unknown", 0,
        "Foundry API error: " ++ str_of (foundry_error results))%string
  else if Qlt_bool 50 deepfake_score then
    Ok ("deepfake", min2 deepfake_score 98,
        "High likelihood of manipulation or deepfake")%string
  else
    (* [sensitive_score > 40] raises unless it is a number *)
    s ← as_num sensitive_score;
    if Qlt_bool 40 s then
      Ok ("sensitive", min2 s 98,
          "Content appears to be sensitive/private")%string
    else
      Ok ("real_safe", 98 - max2 deepfake_score s,
          "Content appears authentic and safe")%string.

Definition _generate_recommendations (classification : string)
  : list string :=
  let recommendations : list string := [] in
  if String.eqb classification "deepfake" then
    recommendations ++
      ["⚠️ This content shows signs of manipulation";
       "🔍 Verify source before sharing";
       "🛡️ Consider reporting if used maliciously"]%string
  else if String.eqb classification "sensitive" then
    recommendations ++
      ["🔒 This content may be sensitive";
       "🛡️ Consider generating protection fingerprint";
       "⚠️ Be cautious about sharing"]%string
  else
    recommendations ++
      ["✅ Content appears authentic";
       "📝 No immediate concerns detected"]%string.

(** Lines 124-144 of [analyze]: from the collected [results] to the
    returned dictionary.  [details] and [recommendations] are opaque
    values. *)
Definition analyze_result (results : Results) : result Dict :=
  '(classification, confidence, details_text) ← _classify_results results;
  let recommendations := _generate_recommendations classification in
  Ok {[ "classification"%string := VStr classification;
        "confidence"%string := VNum confidence;
        "details"%string := VOther;
        "recommendations"%string := VOther ]}.

End AIAnalysisEngine.

(** ** modules/fake_news_detection.py *)

Module FakeNewsDetectionEngine.

Import TrustAggregator.

(** [analyze].  [prob] is [probs[1]] when the model is loaded and
    [predict_proba] returns, [None] when the model is missing or the
    prediction raises.  The nested [explanation] dictionary is an opaque
    value. *)
Definition analyze (text : str) (prob : option Q) : Dict :=
  if negb (str_truthy text) || (length (strip text) =? 0)%nat then
    {[ "fake_news_likelihood"%string := VNum 0;
       "credibility_score"%string := VNum 50;
       "uncertain"%string := VNum 50;
       "explanation"%string := VOther ]}
  else
    let fake_news_score :=
      match prob with
      | Some p => p * 100
      | None => 50
      end in
    let fake_news_likelihood := max2 0 (min2 (985 # 10) fake_news_score) in
    let credibility_score := 100 - fake_news_likelihood in
    let uncertain :=
      max2 (15 # 10)
        (min2 100 (100 - abs (fake_news_likelihood - 50) * 2)) in
    {[ "fake_news_likelihood"%string := VNum (round1 fake_news_likelihood);
       "credibility_score"%string := VNum (round1 credibility_score);
       "uncertain"%string := VNum (round1 uncertain);
       "explanation"%string := VOther ]}.




End FakeNewsDetectionEngine.

(** ** streamlit_app.py *)

Module App.

Import TrustAggregator.

(** Lines 475-481 of [render_upload_analyze_tab]: the call of the
    aggregator on the results of the three modules. *)
Definition trust_aggregation
  (analysis_result fake_news_result content_safety_result : option Dict)
  : result (option TrustVerdict) :=
  if dict_truthy analysis_result || dict_truthy fake_news_result
     || dict_truthy content_safety_result
  then
    v ← aggregate analysis_result fake_news_result
          (if dict_truthy content_safety_result then content_safety_result
           else if dict_truthy analysis_result
                   && eq_str (get analysis_result "classification" VNone)
                        "sensitive"
                then analysis_result
                else None);
    Ok (Some v)
  else Ok None.

End App.

(** ** modules/blockchain_layer.py *)

Module BlockchainTraceability.

Record TransactionData : Type := {
  td_fingerprint_id : option string;
  td_sha256_hash : option string;
  td_perceptual_hash : option string;
  td_protection_flag : bool;
  td_consent_status : bool;
  td_timestamp : string;
  td_metadata_hash : option string
}.

Record BlockHeader : Type := {
  h_block_number : nat;
  h_previous_hash : string;
  h_timestamp : string;
  h_transaction_id : string;
  h_merkle_root : string
}.

Record Block : Type := {
  block_number : nat;
  block_hash : string;
  previous_hash : string;
  transaction_id : string;
  transaction_data : TransactionData;
  timestamp : string
}.

(** The attributes of the object. *)
Record State : Type := {
  use_testnet : bool;
  mock_chain : list Block;
  last_block_hash : string
}.

(** The dictionary [register_fingerprint] returns. *)
Record Registration : Type := {
  r_transaction_id : string;
  r_block_number : nat;
  r_timestamp : string;
  r_fingerprint_id : option string;
  r_protection_flag : bool;
  r_consent_status : bool;
  r_blockchain_type : string;
  r_block_hash : string;
  r_previous_hash : string
}.

(** The dictionary [verify_transaction] returns: [{'verified': True, ...}]
    or [{'verified': False}]. *)
Inductive Verification : Type :=
| Verified (block_number : nat) (timestamp : string) (block_hash : string)
| NotVerified.

Record ChainInfo : Type := {
  chain_length : nat;
  ci_last_block_hash : string;
  ci_blockchain_type : string;
  genesis_block : option Block
}.

Definition genesis_hash : string := Inputs.rep "0" 64.

(** [__init__] *)
Definition init (use_testnet : bool) : State :=
  {| use_testnet := use_testnet;
     mock_chain := [];
     last_block_hash := genesis_hash |}.

Definition blockchain_type (st : State) : string :=
  if use_testnet st then "mock_testnet" else "production".

Section Hashing.

(** [hashlib.sha256(s.encode()).hexdigest()] and
    [json.dumps(d, sort_keys=True)] on the two dictionaries the module
    serialises. *)
Variable sha256_hexdigest : string -> string.
Variable dumps_transaction : TransactionData -> string.
Variable dumps_header : BlockHeader -> string.

Definition _create_block (st : State) (transaction_data : TransactionData)
  : Block :=
  let block_number := length (mock_chain st) in
  let tx_data_str := dumps_transaction transaction_data in
  let transaction_id := sha256_hexdigest tx_data_str in
  let block_header :=
    {| h_block_number := block_number;
       h_previous_hash := last_block_hash st;
       h_timestamp := td_timestamp transaction_data;
       h_transaction_id := transaction_id;
       h_merkle_root := transaction_id |} in
  let block_data_str := dumps_header block_header in
  let block_hash := sha256_hexdigest block_data_str in
  {| block_number := block_number;
     block_hash := block_hash;
     previous_hash := last_block_hash st;
     transaction_id := transaction_id;
     transaction_data := transaction_data;
     timestamp := td_timestamp transaction_data |}.

(** [register_fingerprint]; [now] is the clock reading
    [datetime.now(timezone.utc).isoformat()]. *)
Definition register_fingerprint (st : State) (now : string)
  (fingerprint_data : VerificationEngine.Fingerprint)
  (protection_flag consent_status : bool) : Registration * State :=
  let timestamp := now in
  let transaction_data :=
    {| td_fingerprint_id :=
         VerificationEngine.get fingerprint_data "fingerprint_id";
       td_sha256_hash := VerificationEngine.get fingerprint_data "sha256";
       td_perceptual_hash :=
         VerificationEngine.get fingerprint_data "perceptual_hash";
       td_protection_flag := protection_flag;
       td_consent_status := consent_status;
       td_timestamp := timestamp;
       td_metadata_hash :=
         VerificationEngine.get fingerprint_data "metadata_hash" |} in
  let block := _create_block st transaction_data in
  let st' :=
    {| use_testnet := use_testnet st;
       mock_chain := mock_chain st ++ [block];
       last_block_hash := block_hash block |} in
  ({| r_transaction_id := transaction_id block;
      r_block_number := block_number block;
      r_timestamp := timestamp;
      r_fingerprint_id :=
        VerificationEngine.get fingerprint_data "fingerprint_id";
      r_protection_flag := protection_flag;
      r_consent_status := consent_status;
      r_blockchain_type := blockchain_type st;
      r_block_hash := block_hash block;
      r_previous_hash := previous_hash block |}, st').

End Hashing.

Fixpoint find_transaction (chain : list Block) (tx : string)
  : Verification :=
  match chain with
  | [] => NotVerified
  | block :: rest =>
      if String.eqb (transaction_id block) tx
      then Verified (block_number block) (timestamp block) (block_hash block)
      else find_transaction rest tx
  end.

Definition verify_transaction (st : State) (tx : string) : Verification :=
  find_transaction (mock_chain st) tx.

Definition get_chain_info (st : State) : ChainInfo :=
  {| chain_length := length (mock_chain st);
     ci_last_block_hash := last_block_hash st;
     ci_blockchain_type := blockchain_type st;
     genesis_block := head (mock_chain st) |}.

(** One call of [register_fingerprint]: the clock reading and the
    arguments. *)
Record Call : Type := {
  call_now : string;
  call_fingerprint : VerificationEngine.Fingerprint;
  call_protection_flag : bool;
  call_consent_status : bool
}.

(** The state after a sequence of calls of [register_fingerprint]. *)
Definition run (sha256_hexdigest : string -> string)
  (dumps_transaction : TransactionData -> string)
  (dumps_header : BlockHeader -> string)
  (st : State) (calls : list Call) : State :=
  fold_left
    (fun st c =>
       snd (register_fingerprint sha256_hexdigest dumps_transaction
              dumps_header st (call_now c) (call_fingerprint c)
              (call_protection_flag c) (call_consent_status c)))
    calls st.

End BlockchainTraceability.

(** ** Quantities used to state the further properties *)

Module Shape.

(** The dictionary of a fake-news result with the given likelihood,
    credibility and uncertainty. *)
Definition fake_news_dict (likelihood credibility uncertain : Q)
  : gmap string value :=
  {[ "fake_news_likelihood"%string := VNum likelihood;
     "credibility_score"%string := VNum credibility;
     "uncertain"%string := VNum uncertain;
     "explanation"%string := VOther ]}.

(** The three scores are in the ranges of [FakeNewsDetectionEngine.analyze]:
    likelihood in [[0, 98.5]], credibility and uncertainty in
    [[1.5, 100]]. *)
Definition fake_news_ranges (likelihood credibility uncertain : Q) : Prop :=
  0 <= likelihood <= 985 # 10
  /\ 15 # 10 <= credibility <= 100
  /\ 15 # 10 <= uncertain <= 100.

(** The blocks of a chain are numbered from [n] on, and each holds as
    previous hash the hash of the block before it, the first one [prev]. *)
Fixpoint linked_from (prev : string) (n : nat)
  (chain : list BlockchainTraceability.Block) : Prop :=
  match chain with
  | [] => True
  | b :: rest =>
      BlockchainTraceability.block_number b = n
      /\ BlockchainTraceability.previous_hash b = prev
      /\ linked_from (BlockchainTraceability.block_hash b) (S n) rest
  end.

(** The hash of the last block of a chain, [prev] for the empty chain. *)
Definition last_hash (prev : string)
  (chain : list BlockchainTraceability.Block) : string :=
  List.last (map BlockchainTraceability.block_hash chain) prev.

End Shape.

(** * Properties *)

(** ** Arithmetic of the primitives *)

Section Arithmetic.

Lemma Qlt_bool_iff (x y : Q) : Qlt_bool x y = true <-> x < y.
Proof.
  unfold Qlt_bool. rewrite negb_true_iff.
  split.
  - intros H. apply Qnot_le_lt. intros Hle. apply Qle_bool_iff in Hle.
    congruence.
  - intros H. destruct (Qle_bool y x) eqn:E; [|reflexivity].
    apply Qle_bool_iff in E. exfalso. apply (Qlt_not_le _ _ H E).
Qed.

Lemma Qlt_bool_false_iff (x y : Q) : Qlt_bool x y = false <-> y <= x.
Proof.
  unfold Qlt_bool. rewrite negb_false_iff. apply Qle_bool_iff.
Qed.

Lemma of_nat_nonneg (n : nat) : 0 <= of_nat n.
Proof. unfold of_nat. change 0 with (inject_Z 0). rewrite <- Zle_Qle. lia. Qed.

Lemma of_nat_pos (n : nat) : (0 < n)%nat -> 0 < of_nat n.
Proof.
  intros H. unfold of_nat. change 0 with (inject_Z 0). rewrite <- Zlt_Qlt.
  lia.
Qed.

Lemma of_nat_le (a b : nat) : (a <= b)%nat -> of_nat a <= of_nat b.
Proof. intros H. unfold of_nat. rewrite <- Zle_Qle. lia. Qed.

Lemma of_nat_plus (a b : nat) : of_nat (a + b) == of_nat a + of_nat b.
Proof. unfold of_nat. rewrite Nat2Z.inj_add, inject_Z_plus. reflexivity. Qed.

Lemma truediv_ok (a b : Q) : ~ b == 0 -> truediv a b = Ok (a / b).
Proof.
  intros H. unfold truediv. destruct (Qeq_bool b 0) eqn:E; [|reflexivity].
  apply Qeq_bool_iff in E. contradiction.
Qed.

Lemma truediv_of_nat (a : Q) (n : nat) :
  (0 < n)%nat -> truediv a (of_nat n) = Ok (a / of_nat n).
Proof.
  intros H. apply truediv_ok. intros E. apply of_nat_pos in H. rewrite E in H.
  apply (Qlt_irrefl _ H).
Qed.

Lemma ratio_bounds (a b : nat) :
  (a <= b)%nat -> (0 < b)%nat -> 0 <= of_nat a / of_nat b <= 1.
Proof.
  intros Hab Hb. pose proof (of_nat_pos _ Hb) as Hp.
  pose proof (of_nat_nonneg a) as Ha. pose proof (of_nat_le _ _ Hab) as Hle.
  split.
  - apply Qle_shift_div_l; [exact Hp|]. lra.
  - apply Qle_shift_div_r; [exact Hp|]. lra.
Qed.

End Arithmetic.

(** ** Similarity of two hashes *)

Section Similarity.

Import VerificationEngine Spec.

Lemma count_ne_zip (s1 s2 : string) :
  count_ne (zip s1 s2) = mismatched_symbol_count s1 s2.
Proof.
  revert s2. induction s1 as [|a r1 IH]; intros [|b r2]; try reflexivity.
  simpl. rewrite <- IH. unfold zip, count_ne. simpl.
  destruct (Ascii.eqb a b); reflexivity.
Qed.

Lemma count_eq_zip (s1 s2 : string) :
  count_eq (zip s1 s2) = matching_position_count s1 s2.
Proof.
  revert s2. induction s1 as [|a r1 IH]; intros [|b r2]; try reflexivity.
  simpl. rewrite <- IH. unfold zip, count_eq. simpl.
  destruct (Ascii.eqb a b); reflexivity.
Qed.

Lemma matching_plus_mismatched (s1 s2 : string) :
  (matching_position_count s1 s2 + mismatched_symbol_count s1 s2
   = Nat.min (String.length s1) (String.length s2))%nat.
Proof.
  revert s2. induction s1 as [|a r1 IH]; intros [|b r2]; try reflexivity.
  simpl. specialize (IH r2). destruct (Ascii.eqb a b); lia.
Qed.

Lemma matching_refl (s : string) :
  matching_position_count s s = String.length s.
Proof.
  induction s as [|a r IH]; [reflexivity|].
  simpl. rewrite Ascii.eqb_refl, IH. reflexivity.
Qed.

Lemma length_pos (s : string) : s <> ""%string -> (0 < String.length s)%nat.
Proof. destruct s; [congruence | simpl; lia]. Qed.

Lemma truthy_Some (s : string) : truthy (Some s) = true <-> s <> ""%string.
Proof.
  simpl. rewrite negb_true_iff. apply String.eqb_neq.
Qed.

Lemma truthy_present (h : option string) : truthy h = true <-> present h.
Proof.
  split.
  - destruct h as [s|]; [|discriminate]. intros H. exists s.
    split; [reflexivity | apply truthy_Some, H].
  - intros (s & -> & Hs). apply truthy_Some, Hs.
Qed.

Lemma max2_nonneg (x : Q) : 0 <= x -> max2 0 x == x.
Proof.
  intros H. unfold max2. destruct (Qlt_bool 0 x) eqn:E; [reflexivity|].
  apply Qlt_bool_false_iff in E. lra.
Qed.

(** The fall-back of [_check_perceptual_similarity], which is all of
    [_check_face_similarity]. *)
Lemma fallback_value (h1 h2 : string) :
  h1 <> ""%string -> h2 <> ""%string ->
  exists q,
    (if String.eqb h1 h2 then Ok 100
     else
       r ← truediv (of_nat (count_eq (zip h1 h2)))
             (of_nat (Nat.max (String.length h1) (String.length h2)));
       Ok (r * 100)) = Ok q
    /\ q == of_nat (matching_position_count h1 h2)
            / of_nat (Nat.max (String.length h1) (String.length h2)) * 100.
Proof.
  intros H1 H2. apply length_pos in H1, H2.
  destruct (String.eqb h1 h2) eqn:E.
  - apply String.eqb_eq in E. subst h2. exists 100. split; [reflexivity|].
    rewrite matching_refl, Nat.max_id.
    pose proof (of_nat_pos _ H1). field. lra.
  - rewrite truediv_of_nat by lia. simpl. rewrite count_eq_zip.
    eexists. split; reflexivity.
Qed.

Lemma face_similarity_value (h1 h2 : string) :
  h1 <> ""%string -> h2 <> ""%string ->
  exists q,
    _check_face_similarity (Some h1) (Some h2) = Ok q
    /\ q == of_nat (matching_position_count h1 h2)
            / of_nat (Nat.max (String.length h1) (String.length h2)) * 100.
Proof.
  intros H1 H2. unfold _check_face_similarity.
  rewrite (proj2 (truthy_Some h1) H1), (proj2 (truthy_Some h2) H2). simpl.
  apply fallback_value; assumption.
Qed.

Lemma perceptual_similarity_value (h1 h2 : string) :
  h1 <> ""%string -> h2 <> ""%string ->
  exists q,
    _check_perceptual_similarity (Some h1) (Some h2) = Ok q
    /\ q == of_nat (matching_position_count h1 h2)
            / of_nat (Nat.max (String.length h1) (String.length h2)) * 100.
Proof.
  intros H1 H2. unfold _check_perceptual_similarity.
  rewrite (proj2 (truthy_Some h1) H1), (proj2 (truthy_Some h2) H2). simpl.
  destruct ((String.length h1 =? 16)%nat && (String.length h2 =? 16)%nat)
    eqn:E.
  - apply andb_true_iff in E. destruct E as [E1 E2].
    apply Nat.eqb_eq in E1, E2.
    rewrite truediv_of_nat by lia. simpl.
    eexists. split; [reflexivity|].
    rewrite count_ne_zip.
    pose proof (matching_plus_mismatched h1 h2) as Hsum.
    rewrite E1, E2 in *. simpl Nat.min in Hsum. simpl Nat.max.
    assert (Hq : of_nat (mismatched_symbol_count h1 h2)
                 == of_nat 16 - of_nat (matching_position_count h1 h2)).
    { rewrite <- Hsum, of_nat_plus. ring. }
    pose proof (ratio_bounds (matching_position_count h1 h2) 16) as Hb.
    rewrite max2_nonneg; rewrite Hq.
    + field. discriminate.
    + assert (Hr : (1 - (of_nat 16 - of_nat (matching_position_count h1 h2))
                        / of_nat 16) * 100
                   == of_nat (matching_position_count h1 h2) / of_nat 16 * 100)
        by (field; discriminate).
      rewrite Hr. destruct Hb as [Hb _]; [lia | lia |]. lra.
  - apply fallback_value; assumption.
Qed.

End Similarity.

(** ** The scan of the registry *)

Section Scan.

Import VerificationEngine Spec.

Variable cand : Fingerprint.

Lemma lower_empty (s : string) : lower s = ""%string -> s = ""%string.
Proof. destruct s; [reflexivity | discriminate]. Qed.

Lemma exact_true_iff (e : Protected) :
  exact cand e = true <-> exact_hash_match cand e.
Proof.
  unfold exact, exact_hash_match, _check_exact_match.
  destruct (get cand "sha256") as [h1|], (get (entry_fp e) "sha256") as [h2|];
    try (split; [discriminate | intros (? & ? & ? & ? & ?); congruence]).
  split.
  - destruct (truthy (Some h1)) eqn:T1; [|discriminate].
    destruct (truthy (Some h2)) eqn:T2; [|discriminate]. simpl.
    intros E. apply String.eqb_eq in E. apply truthy_Some in T1.
    exists h1, h2. auto.
  - intros (x1 & x2 & [= <-] & [= <-] & Hne & Hl).
    assert (Hne2 : h2 <> ""%string).
    { intros ->. apply Hne, lower_empty. exact Hl. }
    rewrite (proj2 (truthy_Some h1) Hne), (proj2 (truthy_Some h2) Hne2).
    simpl. apply String.eqb_eq, Hl.
Qed.

Lemma perceptual_similarity_total (o1 o2 : option string) :
  exists q, _check_perceptual_similarity o1 o2 = Ok q /\ 0 <= q <= 100.
Proof.
  destruct (truthy o1) eqn:T1, (truthy o2) eqn:T2.
  - apply truthy_present in T1, T2.
    destruct T1 as (h1 & -> & H1), T2 as (h2 & -> & H2).
    destruct (perceptual_similarity_value h1 h2 H1 H2) as (q & -> & Hq).
    exists q. split; [reflexivity|]. rewrite Hq.
    pose proof (matching_plus_mismatched h1 h2).
    apply length_pos in H1, H2.
    destruct (ratio_bounds (matching_position_count h1 h2)
                (Nat.max (String.length h1) (String.length h2)));
      [lia | lia |]. lra.
  - exists 0. split; [|lra]. unfold _check_perceptual_similarity.
    destruct o1, o2; try reflexivity. rewrite T1, T2. reflexivity.
  - exists 0. split; [|lra]. unfold _check_perceptual_similarity.
    destruct o1, o2; try reflexivity. rewrite T1, T2. reflexivity.
  - exists 0. split; [|lra]. unfold _check_perceptual_similarity.
    destruct o1, o2; try reflexivity. rewrite T1, T2. reflexivity.
Qed.

Lemma face_similarity_total (o1 o2 : option string) :
  exists q, _check_face_similarity o1 o2 = Ok q /\ 0 <= q <= 100.
Proof.
  destruct (truthy o1) eqn:T1, (truthy o2) eqn:T2.
  - apply truthy_present in T1, T2.
    destruct T1 as (h1 & -> & H1), T2 as (h2 & -> & H2).
    destruct (face_similarity_value h1 h2 H1 H2) as (q & -> & Hq).
    exists q. split; [reflexivity|]. rewrite Hq.
    pose proof (matching_plus_mismatched h1 h2).
    apply length_pos in H1, H2.
    destruct (ratio_bounds (matching_position_count h1 h2)
                (Nat.max (String.length h1) (String.length h2)));
      [lia | lia |]. lra.
  - exists 0. split; [|lra]. unfold _check_face_similarity.
    destruct o1, o2; try reflexivity. rewrite T1, T2. reflexivity.
  - exists 0. split; [|lra]. unfold _check_face_similarity.
    destruct o1, o2; try reflexivity. rewrite T1, T2. reflexivity.
  - exists 0. split; [|lra]. unfold _check_face_similarity.
    destruct o1, o2; try reflexivity. rewrite T1, T2. reflexivity.
Qed.

Lemma perceptual_sim_eq (e : Protected) :
  _check_perceptual_similarity (get cand "perceptual_hash")
    (get (entry_fp e) "perceptual_hash") = Ok (perceptual_sim cand e).
Proof.
  unfold perceptual_sim.
  destruct (perceptual_similarity_total (get cand "perceptual_hash")
              (get (entry_fp e) "perceptual_hash")) as (q & -> & _).
  reflexivity.
Qed.

Lemma face_sim_eq (e : Protected) :
  _check_face_similarity (get cand "face_embedding_hash")
    (get (entry_fp e) "face_embedding_hash") = Ok (face_sim cand e).
Proof.
  unfold face_sim.
  destruct (face_similarity_total (get cand "face_embedding_hash")
              (get (entry_fp e) "face_embedding_hash")) as (q & -> & _).
  reflexivity.
Qed.

Lemma scan_comparisons (reg : list Protected) (b : Best) :
  (forall e, In e reg -> exact cand e = false) ->
  scan cand reg b = Ok (inr (track (comparisons cand reg) b)).
Proof.
  revert b. induction reg as [|e reg IH]; intros b Hno; [reflexivity|].
  simpl scan. fold (entry_fp e). fold (exact cand e).
  rewrite (Hno e (or_introl eq_refl)).
  rewrite perceptual_sim_eq. simpl.
  fold (face_compared cand e).
  unfold comparisons. simpl flat_map. unfold comparisons_of at 1.
  destruct (face_compared cand e).
  - rewrite face_sim_eq. simpl. apply IH. intros x Hx. apply Hno. now right.
  - simpl. apply IH. intros x Hx. apply Hno. now right.
Qed.

Lemma scan_exact (pre post : list Protected) (e : Protected) (b : Best) :
  (forall x, In x pre -> exact cand x = false) ->
  exact cand e = true ->
  scan cand (pre ++ e :: post) b = Ok (inl (exact_decision e)).
Proof.
  revert b. induction pre as [|x pre IH]; intros b Hpre He.
  - simpl. fold (entry_fp e). fold (exact cand e). rewrite He. reflexivity.
  - simpl. fold (entry_fp x). fold (exact cand x).
    rewrite (Hpre x (or_introl eq_refl)).
    rewrite perceptual_sim_eq. simpl. fold (face_compared cand x).
    destruct (face_compared cand x).
    + rewrite face_sim_eq. simpl. apply IH; [|exact He].
      intros y Hy. apply Hpre. now right.
    + simpl. apply IH; [|exact He]. intros y Hy. apply Hpre. now right.
Qed.

Lemma update_lt (b : Best) (c : Comparison) :
  best_similarity b < c_sim c ->
  update b (c_sim c) (c_entry c) (c_type c) = tracked c.
Proof.
  intros H. unfold update. rewrite (proj2 (Qlt_bool_iff _ _) H). reflexivity.
Qed.

Lemma update_ge (b : Best) (c : Comparison) :
  c_sim c <= best_similarity b ->
  update b (c_sim c) (c_entry c) (c_type c) = b.
Proof.
  intros H. unfold update.
  rewrite (proj2 (Qlt_bool_false_iff _ _) H). reflexivity.
Qed.

Lemma track_keep (cs : list Comparison) (b : Best) :
  (forall c, In c cs -> c_sim c <= best_similarity b) -> track cs b = b.
Proof.
  induction cs as [|c cs IH]; intros H; [reflexivity|].
  simpl. rewrite update_ge by (apply H; now left).
  apply IH. intros x Hx. apply H. now right.
Qed.

Lemma track_lt (cs : list Comparison) (b : Best) (m : Q) :
  best_similarity b < m ->
  (forall c, In c cs -> c_sim c < m) ->
  best_similarity (track cs b) < m.
Proof.
  revert b. induction cs as [|c cs IH]; intros b Hb H; [exact Hb|].
  simpl. apply IH; [|intros x Hx; apply H; now right].
  unfold update. destruct (Qlt_bool (best_similarity b) (c_sim c)).
  - simpl. apply H. now left.
  - exact Hb.
Qed.

Lemma track_first (pre post : list Comparison) (c : Comparison) (b : Best) :
  best_similarity b < c_sim c ->
  (forall x, In x pre -> c_sim x < c_sim c) ->
  (forall x, In x post -> c_sim x <= c_sim c) ->
  track (pre ++ c :: post) b = tracked c.
Proof.
  intros Hb Hpre Hpost. unfold track. rewrite fold_left_app. simpl.
  fold (track pre b).
  rewrite update_lt by (apply track_lt; assumption).
  apply track_keep. exact Hpost.
Qed.

Lemma track_upper (cs : list Comparison) (b : Best) :
  best_similarity b <= best_similarity (track cs b)
  /\ forall c, In c cs -> c_sim c <= best_similarity (track cs b).
Proof.
  revert b. induction cs as [|c cs IH]; intros b.
  - split; [apply Qle_refl | intros c []].
  - simpl. destruct (IH (update b (c_sim c) (c_entry c) (c_type c)))
      as [H1 H2].
    assert (Hu : best_similarity b
                 <= best_similarity (update b (c_sim c) (c_entry c) (c_type c))
                 /\ c_sim c
                 <= best_similarity
                      (update b (c_sim c) (c_entry c) (c_type c))).
    { unfold update. destruct (Qlt_bool (best_similarity b) (c_sim c)) eqn:E.
      - apply Qlt_bool_iff in E. simpl. lra.
      - apply Qlt_bool_false_iff in E. lra. }
    destruct Hu as [Hu1 Hu2]. split; [lra|].
    intros x [<-|Hx]; [lra | apply H2, Hx].
Qed.

Lemma track_attained (cs : list Comparison) (b : Best) :
  track cs b = b \/ exists c, In c cs /\ track cs b = tracked c.
Proof.
  revert b. induction cs as [|c cs IH]; intros b; [now left|].
  simpl. destruct (IH (update b (c_sim c) (c_entry c) (c_type c)))
    as [H | (x & Hx & H)].
  - rewrite H. unfold update.
    destruct (Qlt_bool (best_similarity b) (c_sim c)).
    + right. exists c. split; [now left | reflexivity].
    + now left.
  - right. exists x. split; [now right | exact H].
Qed.

(** The decision of [verify] when the scan meets no exact match. *)
Lemma verify_no_exact (reg : list Protected) :
  (forall e, In e reg -> exact cand e = false) ->
  exists d,
    verify cand reg = Ok d
    /\ similarity d = best_similarity (track (comparisons cand reg) Best_init)
    /\ match_found d
       = Qle_bool 85 (best_similarity (track (comparisons cand reg) Best_init))
    /\ (match_found d = true ->
        match_type d
        = best_match_type (track (comparisons cand reg) Best_init)
        /\ matched_fingerprint d
           = best_match (track (comparisons cand reg) Best_init)).
Proof.
  intros Hno. destruct reg as [|e reg].
  - eexists. split; [reflexivity|]. simpl. repeat split; discriminate.
  - unfold verify. rewrite (scan_comparisons (e :: reg) Best_init Hno).
    generalize (track (comparisons cand (e :: reg)) Best_init). intros b.
    unfold mbind, result_bind.
    assert (Ht : Qle_bool (perceptual_similarity_threshold * 100)
                   (best_similarity b)
                 = Qle_bool 85 (best_similarity b)).
    { destruct (Qle_bool 85 (best_similarity b)) eqn:E.
      - apply Qle_bool_iff in E. apply Qle_bool_iff.
        unfold perceptual_similarity_threshold. lra.
      - destruct (Qle_bool (perceptual_similarity_threshold * 100)
                    (best_similarity b)) eqn:E'; [|reflexivity].
        apply Qle_bool_iff in E'. unfold perceptual_similarity_threshold in E'.
        assert (85 <= best_similarity b) as E'' by lra.
        apply Qle_bool_iff in E''. congruence. }
    rewrite Ht. destruct (Qle_bool 85 (best_similarity b)) eqn:E.
    + eexists. split; [reflexivity|]. simpl. auto.
    + eexists. split; [reflexivity|]. simpl. repeat split; discriminate.
Qed.

End Scan.

(** ** Decisions of [verify] *)

Section Verify.

Import VerificationEngine Spec.

Lemma first_true {A : Type} (f : A -> bool) (l : list A) :
  (forall x, In x l -> f x = false)
  \/ exists pre e post,
       l = pre ++ e :: post
       /\ (forall x, In x pre -> f x = false) /\ f e = true.
Proof.
  induction l as [|a l IH]; [left; intros x []|].
  destruct (f a) eqn:Fa.
  - right. exists [], a, l. repeat split; [intros x [] | exact Fa].
  - destruct IH as [IH | (pre & e & post & -> & Hpre & He)].
    + left. intros x [<-|Hx]; [exact Fa | apply IH, Hx].
    + right. exists (a :: pre), e, post. repeat split; [|exact He].
      intros x [<-|Hx]; [exact Fa | apply Hpre, Hx].
Qed.

Lemma verify_exact (cand : Fingerprint) (pre post : list Protected)
  (e : Protected) :
  (forall x, In x pre -> exact cand x = false) ->
  exact cand e = true ->
  verify cand (pre ++ e :: post) = Ok (exact_decision e).
Proof.
  intros Hpre He. unfold verify.
  rewrite (scan_exact cand pre post e Best_init Hpre He).
  destruct pre; reflexivity.
Qed.

Lemma exact_sha256_only (cand cand' : Fingerprint) (e : Protected) :
  get cand' "sha256" = get cand "sha256" -> exact cand' e = exact cand e.
Proof. intros H. unfold exact. rewrite H. reflexivity. Qed.

(** C2: when the exact hash of some registry entry is present (a
    non-empty string, as every digest is) and equals the candidate's exact
    hash up to the case of the letters, [verify] returns [match_found = true], [match_type = 'exact'],
    [similarity = 100] and, as matched entry, the first such entry in
    registry order.  The decision is the same for every candidate with that
    exact hash, whatever its perceptual and biometric hashes. *)
Theorem verify_exact_match_first (cand : Fingerprint) (reg : list Protected) :
  (exists e, In e reg /\ exact_hash_match cand e) ->
  exists pre e post d,
    reg = pre ++ e :: post
    /\ exact_hash_match cand e
    /\ (forall x, In x pre -> ~ exact_hash_match cand x)
    /\ verify cand reg = Ok d
    /\ match_found d = true
    /\ match_type d = Some "exact"%string
    /\ similarity d == 100
    /\ matched_fingerprint d = Some e
    /\ (forall cand' : Fingerprint,
          get cand' "sha256" = get cand "sha256" ->
          verify cand' reg = Ok d).
Proof.
  intros (e0 & Hin & Hm).
  destruct (first_true (exact cand) reg)
    as [Hno | (pre & e & post & -> & Hpre & He)].
  - apply exact_true_iff in Hm. rewrite (Hno e0 Hin) in Hm. discriminate.
  - exists pre, e, post, (exact_decision e).
    split; [reflexivity|].
    split; [apply exact_true_iff, He|].
    split.
    { intros x Hx Hx'. apply exact_true_iff in Hx'.
      rewrite (Hpre x Hx) in Hx'. discriminate. }
    split; [apply verify_exact; assumption|].
    repeat (split; [reflexivity|]).
    intros cand' Hsha. apply verify_exact.
    + intros x Hx. rewrite (exact_sha256_only cand cand' x Hsha).
      apply Hpre, Hx.
    + rewrite (exact_sha256_only cand cand' e Hsha). exact He.
Qed.

Lemma verify_exact_match_first_witness :
  exists pre e post d,
    [Inputs.entry_B; Inputs.entry (Some "C0"%string) None None]
    = pre ++ e :: post
    /\ exact_hash_match Inputs.cand_AB e
    /\ (forall x, In x pre -> ~ exact_hash_match Inputs.cand_AB x)
    /\ verify Inputs.cand_AB
         [Inputs.entry_B; Inputs.entry (Some "C0"%string) None None] = Ok d
    /\ match_found d = true
    /\ match_type d = Some "exact"%string
    /\ similarity d == 100
    /\ matched_fingerprint d = Some e
    /\ (forall cand' : Fingerprint,
          get cand' "sha256" = get Inputs.cand_AB "sha256" ->
          verify cand'
            [Inputs.entry_B; Inputs.entry (Some "C0"%string) None None]
          = Ok d).
Proof.
  apply (verify_exact_match_first Inputs.cand_AB).
  exists (Inputs.entry (Some "C0"%string) None None).
  split; [right; left; reflexivity|].
  exists "c0"%string, "C0"%string.
  repeat split; [discriminate].
Defined.

(** The guard of [_check_exact_match] takes an exact hash that is the empty
    string for a missing one: when the candidate's and the entry's exact
    hash are both the empty string, [verify] reports no match. *)
Example verify_exact_empty_hash_no_match :
  In Inputs.entry_empty_sha [Inputs.entry_empty_sha]
  /\ exact_hash_equal Inputs.cand_empty_sha Inputs.entry_empty_sha
  /\ returns (verify Inputs.cand_empty_sha [Inputs.entry_empty_sha])
       (fun d => match_found d = false /\ match_type d = None).
Proof.
  split; [left; reflexivity|].
  split.
  - exists ""%string, ""%string. repeat split.
  - vm_compute. split; reflexivity.
Qed.

(** C3: when the scan meets no exact match, [verify] returns
    [match_found = true] exactly when the best similarity of the whole scan
    is at least 85, and it reports that best similarity in either case; a
    best similarity of 85 gives [true], one of 84.9 gives [false]. *)
Theorem verify_threshold (cand : Fingerprint) (reg : list Protected) :
  (forall e, In e reg -> exact cand e = false) ->
  exists d,
    verify cand reg = Ok d
    /\ best_of cand reg (similarity d)
    /\ (match_found d = true <-> 85 <= similarity d)
    /\ (similarity d == 85 -> match_found d = true)
    /\ (similarity d == 849 # 10 -> match_found d = false).
Proof.
  intros Hno.
  destruct (verify_no_exact cand reg Hno) as (d & Hd & Hs & Hf & _).
  exists d. split; [exact Hd|]. rewrite Hs, Hf.
  set (b := track (comparisons cand reg) Best_init).
  split; [|split; [|split]].
  - split.
    + intros c Hc. apply (track_upper (comparisons cand reg) Best_init), Hc.
    + destruct (track_attained (comparisons cand reg) Best_init)
        as [H | (c & Hc & H)].
      * left. subst b. rewrite H. reflexivity.
      * right. exists c. split; [exact Hc|]. subst b. rewrite H. reflexivity.
  - apply Qle_bool_iff.
  - intros H. apply Qle_bool_iff. rewrite H. apply Qle_refl.
  - intros H. destruct (Qle_bool 85 (best_similarity b)) eqn:E;
      [|reflexivity].
    apply Qle_bool_iff in E. rewrite H in E. exfalso. revert E.
    unfold Qle. simpl. lia.
Qed.

Lemma verify_threshold_witness :
  exists d,
    verify Inputs.cand_20 [Inputs.entry_17_of_20] = Ok d
    /\ best_of Inputs.cand_20 [Inputs.entry_17_of_20] (similarity d)
    /\ (match_found d = true <-> 85 <= similarity d)
    /\ (similarity d == 85 -> match_found d = true)
    /\ (similarity d == 849 # 10 -> match_found d = false).
Proof.
  apply (verify_threshold Inputs.cand_20 [Inputs.entry_17_of_20]).
  intros e [<-|[]]. vm_compute. reflexivity.
Defined.

(** 17 of 20 symbols agree: the similarity is 85 and the match is
    accepted. *)
Example verify_at_85 :
  returns (verify Inputs.cand_20 [Inputs.entry_17_of_20])
    (fun d => similarity d == 85 /\ match_found d = true
              /\ match_type d = Some "perceptual"%string).
Proof. vm_compute. repeat split. Qed.

(** 849 of 1000 symbols agree: the similarity is 84.9, the match is
    refused and the similarity is still reported. *)
Example verify_at_84_9 :
  returns (verify Inputs.cand_1000 [Inputs.entry_849_of_1000])
    (fun d => similarity d == 849 # 10 /\ match_found d = false
              /\ match_type d = None).
Proof. vm_compute. repeat split. Qed.

Lemma sim_bounds (cand : Fingerprint) (reg : list Protected) (c : Comparison) :
  In c (comparisons cand reg) -> 0 <= c_sim c <= 100.
Proof.
  unfold comparisons. rewrite in_flat_map. intros (e & _ & Hc).
  unfold comparisons_of in Hc. destruct Hc as [<-|Hc].
  - simpl. unfold perceptual_sim.
    destruct (perceptual_similarity_total (get cand "perceptual_hash")
                (get (entry_fp e) "perceptual_hash")) as (q & -> & Hq).
    exact Hq.
  - destruct (face_compared cand e); [|destruct Hc].
    destruct Hc as [<-|[]]. simpl. unfold face_sim.
    destruct (face_similarity_total (get cand "face_embedding_hash")
                (get (entry_fp e) "face_embedding_hash")) as (q & -> & Hq).
    exact Hq.
Qed.

Lemma perceptual_sim_same (cand : Fingerprint) (e : Protected) (p : string) :
  get cand "perceptual_hash" = Some p -> p <> ""%string ->
  get (entry_fp e) "perceptual_hash" = Some p ->
  perceptual_sim cand e == 100.
Proof.
  intros Hc Hp He. unfold perceptual_sim. rewrite Hc, He.
  destruct (perceptual_similarity_value p p Hp Hp) as (q & -> & Hq).
  simpl. rewrite Hq, matching_refl, Nat.max_id.
  pose proof (of_nat_pos _ (length_pos p Hp)). field. lra.
Qed.

Lemma first_best_reported (cand : Fingerprint) (reg : list Protected)
  (pre post : list Comparison) (c : Comparison) :
  (forall e, In e reg -> exact cand e = false) ->
  comparisons cand reg = pre ++ c :: post ->
  (forall x, In x pre -> c_sim x < c_sim c) ->
  (forall x, In x post -> c_sim x <= c_sim c) ->
  0 < c_sim c ->
  scan cand reg Best_init = Ok (inr (tracked c))
  /\ (85 <= c_sim c ->
      exists d,
        verify cand reg = Ok d
        /\ match_found d = true
        /\ similarity d = c_sim c
        /\ match_type d = Some (c_type c)
        /\ matched_fingerprint d = Some (c_entry c)).
Proof.
  intros Hno Hcs Hpre Hpost Hpos.
  assert (Ht : track (comparisons cand reg) Best_init = tracked c).
  { rewrite Hcs. apply track_first; assumption. }
  split.
  - rewrite (scan_comparisons cand reg Best_init Hno), Ht. reflexivity.
  - intros H85.
    destruct (verify_no_exact cand reg Hno) as (d & Hd & Hs & Hf & Hm).
    rewrite Ht in *. simpl in Hs, Hf.
    assert (Hfound : match_found d = true).
    { rewrite Hf. apply Qle_bool_iff, H85. }
    destruct (Hm Hfound) as [Hty Hent].
    exists d. auto.
Qed.

(** C4: when the scan meets no exact match, the comparison that [verify]
    tracks and, from 85 on, reports is the first one in scan order that
    attains the maximal similarity; within an entry the perceptual
    comparison comes before the biometric one and wins a tie.  With entry A
    carrying the candidate's perceptual hash and entry B its biometric hash,
    [verify] returns [match_found = true], [similarity = 100],
    [match_type = 'perceptual'] and entry A. *)
Theorem verify_first_best_wins :
  (forall (cand : Fingerprint) (reg : list Protected)
          (pre post : list Comparison) (c : Comparison),
      (forall e, In e reg -> exact cand e = false) ->
      comparisons cand reg = pre ++ c :: post ->
      (forall x, In x pre -> c_sim x < c_sim c) ->
      (forall x, In x post -> c_sim x <= c_sim c) ->
      0 < c_sim c ->
      scan cand reg Best_init = Ok (inr (tracked c))
      /\ (85 <= c_sim c ->
          exists d,
            verify cand reg = Ok d
            /\ match_found d = true
            /\ similarity d = c_sim c
            /\ match_type d = Some (c_type c)
            /\ matched_fingerprint d = Some (c_entry c)))
  /\ (forall (cand : Fingerprint) (before after : list Protected)
             (e : Protected),
        (forall x, In x (before ++ e :: after) -> exact cand x = false) ->
        face_compared cand e = true ->
        face_sim cand e == perceptual_sim cand e ->
        (forall x, In x (comparisons cand before) ->
                   c_sim x < perceptual_sim cand e) ->
        (forall x, In x (comparisons cand after) ->
                   c_sim x <= perceptual_sim cand e) ->
        85 <= perceptual_sim cand e ->
        exists d,
          verify cand (before ++ e :: after) = Ok d
          /\ match_found d = true
          /\ match_type d = Some "perceptual"%string
          /\ matched_fingerprint d = Some e)
  /\ (forall (cand : Fingerprint) (A B : Protected) (p f : string),
        get cand "perceptual_hash" = Some p -> p <> ""%string ->
        get (entry_fp A) "perceptual_hash" = Some p ->
        get cand "face_embedding_hash" = Some f -> f <> ""%string ->
        get (entry_fp B) "face_embedding_hash" = Some f ->
        exact cand A = false -> exact cand B = false ->
        exists d,
          verify cand [A; B] = Ok d
          /\ match_found d = true
          /\ similarity d == 100
          /\ match_type d = Some "perceptual"%string
          /\ matched_fingerprint d = Some A).
Proof.
  split; [exact first_best_reported|]. split.
  - intros cand before after e Hno Hface Htie Hbefore Hafter H85.
    set (c := {| c_sim := perceptual_sim cand e;
                 c_type := "perceptual"; c_entry := e |}).
    destruct (first_best_reported cand (before ++ e :: after)
                (comparisons cand before)
                ({| c_sim := face_sim cand e; c_type := "face";
                    c_entry := e |} :: comparisons cand after) c)
      as [_ H]; try assumption.
    + unfold comparisons. rewrite flat_map_app. simpl.
      unfold comparisons_of at 2. rewrite Hface. reflexivity.
    + intros x [<-|Hx]; [simpl; rewrite Htie; apply Qle_refl|].
      apply Hafter, Hx.
    + simpl. lra.
    + destruct (H H85) as (d & Hd & Hf & _ & Hty & Hent).
      exists d. auto.
  - intros cand A B p f Hcp Hp HAp Hcf Hf HBf HA HB.
    pose proof (perceptual_sim_same cand A p Hcp Hp HAp) as H100.
    set (c := {| c_sim := perceptual_sim cand A;
                 c_type := "perceptual"; c_entry := A |}).
    destruct (first_best_reported cand [A; B] [] (tl (comparisons cand [A; B]))
                c) as [_ H].
    + intros e [<-|[<-|[]]]; assumption.
    + reflexivity.
    + intros x [].
    + intros x Hx. simpl c_sim. rewrite H100.
      apply (sim_bounds cand [A; B] x).
      change (In x (c :: tl (comparisons cand [A; B]))). right. exact Hx.
    + simpl. rewrite H100. reflexivity.
    + destruct H as (d & Hd & Hfd & Hs & Hty & Hent);
        [simpl; rewrite H100; discriminate|].
      exists d. rewrite Hs. auto.
Qed.

Lemma verify_first_best_wins_witness :
  (scan Inputs.cand_AB [Inputs.entry_A; Inputs.entry_B] Best_init
   = Ok (inr (tracked Inputs.comparison_A))
   /\ exists d,
        verify Inputs.cand_AB [Inputs.entry_A; Inputs.entry_B] = Ok d
        /\ match_found d = true
        /\ similarity d = c_sim Inputs.comparison_A
        /\ match_type d = Some (c_type Inputs.comparison_A)
        /\ matched_fingerprint d = Some (c_entry Inputs.comparison_A))
  /\ (exists d,
        verify Inputs.cand_AB ([] ++ [Inputs.entry_AB]) = Ok d
        /\ match_found d = true
        /\ match_type d = Some "perceptual"%string
        /\ matched_fingerprint d = Some Inputs.entry_AB)
  /\ (exists d,
        verify Inputs.cand_AB [Inputs.entry_A; Inputs.entry_B] = Ok d
        /\ match_found d = true
        /\ similarity d == 100
        /\ match_type d = Some "perceptual"%string
        /\ matched_fingerprint d = Some Inputs.entry_A).
Proof.
  split; [|split].
  - destruct (proj1 verify_first_best_wins Inputs.cand_AB
                [Inputs.entry_A; Inputs.entry_B] []
                (tl (comparisons Inputs.cand_AB
                       [Inputs.entry_A; Inputs.entry_B]))
                Inputs.comparison_A) as [Hscan Hrep].
    + intros e [<-|[<-|[]]]; reflexivity.
    + reflexivity.
    + intros x [].
    + intros x [<-|[<-|[]]]; vm_compute; discriminate.
    + reflexivity.
    + split; [exact Hscan|]. apply Hrep. vm_compute. discriminate.
  - apply (proj1 (proj2 verify_first_best_wins) Inputs.cand_AB [] []
             Inputs.entry_AB).
    + intros e [<-|[]]. reflexivity.
    + reflexivity.
    + reflexivity.
    + intros x [].
    + intros x [].
    + vm_compute. discriminate.
  - apply (proj2 (proj2 verify_first_best_wins) Inputs.cand_AB
             Inputs.entry_A Inputs.entry_B
             "0123456789abcdef"%string "f00d"%string);
      solve [reflexivity | discriminate].
Defined.

(** C5: for two present (non-empty) hashes of equal length the perceptual
    similarity is [(1 - mismatched_symbol_count / length) * 100], for two of
    different lengths it is
    [matching_position_count / max(length1, length2) * 100]; when either
    hash is missing the similarity is 0; the result is always in
    [[0, 100]]. *)
Theorem perceptual_similarity_formula :
  (forall h1 h2 : string,
      h1 <> ""%string -> h2 <> ""%string ->
      returns (_check_perceptual_similarity (Some h1) (Some h2))
        (fun q =>
           (String.length h1 = String.length h2 ->
            q == (1 - of_nat (mismatched_symbol_count h1 h2)
                        / of_nat (String.length h1)) * 100)
           /\ (String.length h1 <> String.length h2 ->
               q == of_nat (matching_position_count h1 h2)
                    / of_nat (Nat.max (String.length h1) (String.length h2))
                    * 100)))
  /\ (forall hash1 hash2 : option string,
        ~ present hash1 \/ ~ present hash2 ->
        _check_perceptual_similarity hash1 hash2 = Ok 0)
  /\ (forall hash1 hash2 : option string,
        returns (_check_perceptual_similarity hash1 hash2)
          (fun q => 0 <= q <= 100)).
Proof.
  split; [|split].
  - intros h1 h2 H1 H2.
    destruct (perceptual_similarity_value h1 h2 H1 H2) as (q & -> & Hq).
    simpl. split; [|intros _; exact Hq].
    intros Hlen. rewrite Hq, <- Hlen, Nat.max_id.
    pose proof (matching_plus_mismatched h1 h2) as Hsum.
    rewrite <- Hlen, Nat.min_id in Hsum.
    assert (Hm : of_nat (matching_position_count h1 h2)
                 == of_nat (String.length h1)
                    - of_nat (mismatched_symbol_count h1 h2)).
    { rewrite <- Hsum at 1. rewrite of_nat_plus. ring. }
    rewrite Hm. pose proof (of_nat_pos _ (length_pos h1 H1)).
    field. lra.
  - intros hash1 hash2 H.
    assert (Hf : truthy hash1 = false \/ truthy hash2 = false).
    { destruct H as [H|H]; [left|right];
        apply not_true_is_false; intros T; apply H, truthy_present, T. }
    unfold _check_perceptual_similarity.
    destruct hash1, hash2; try reflexivity.
    destruct Hf as [-> | ->]; [reflexivity|].
    rewrite orb_true_r. reflexivity.
  - intros hash1 hash2.
    destruct (perceptual_similarity_total hash1 hash2) as (q & -> & Hq).
    exact Hq.
Qed.

Lemma perceptual_similarity_formula_witness :
  returns (_check_perceptual_similarity (Some "abcd"%string)
             (Some "abxd"%string))
    (fun q =>
       (4%nat = 4%nat ->
        q == (1 - of_nat (mismatched_symbol_count "abcd" "abxd")
                    / of_nat 4) * 100)
       /\ (4%nat <> 4%nat ->
           q == of_nat (matching_position_count "abcd" "abxd")
                / of_nat (Nat.max 4 4) * 100))
  /\ _check_perceptual_similarity None (Some "abcd"%string) = Ok 0.
Proof.
  split.
  - apply (proj1 perceptual_similarity_formula "abcd"%string "abxd"%string);
      discriminate.
  - apply (proj1 (proj2 perceptual_similarity_formula)).
    left. intros (s & H & _). discriminate.
Defined.

(** C9: [verify] returns a decision for every candidate and every registry;
    a comparison with a missing or empty hash has similarity 0 and the scan
    goes on to the next entry; on the empty registry the decision is
    [match_found = false], [similarity = 0.0] with the message that the
    database holds no protected fingerprints. *)
Theorem verify_never_raises :
  (forall (cand : Fingerprint) (reg : list Protected),
      exists d, verify cand reg = Ok d)
  /\ (forall (cand : Fingerprint) (reg : list Protected) (b : Best),
        exists r, scan cand reg b = Ok r)
  /\ (forall hash1 hash2 : option string,
        exists q,
          _check_perceptual_similarity hash1 hash2 = Ok q
          /\ (truthy hash1 && truthy hash2 = false -> q = 0))
  /\ (forall hash1 hash2 : option string,
        exists q,
          _check_face_similarity hash1 hash2 = Ok q
          /\ (truthy hash1 && truthy hash2 = false -> q = 0))
  /\ (forall cand : Fingerprint,
        verify cand []
        = Ok {| match_found := false;
                match_type := None;
                similarity := 0;
                matched_fingerprint := None;
                details :=
                  [("message",
                    "No protected fingerprints in database")]%string |}).
Proof.
  split; [|split; [|split; [|split]]].
  - intros cand reg.
    destruct (first_true (exact cand) reg)
      as [Hno | (pre & e & post & -> & Hpre & He)].
    + destruct (verify_no_exact cand reg Hno) as (d & Hd & _).
      exists d. exact Hd.
    + exists (exact_decision e). apply verify_exact; assumption.
  - intros cand reg b.
    destruct (first_true (exact cand) reg)
      as [Hno | (pre & e & post & -> & Hpre & He)].
    + eexists. apply scan_comparisons. exact Hno.
    + eexists. apply scan_exact; assumption.
  - intros hash1 hash2.
    destruct (perceptual_similarity_total hash1 hash2) as (q & Hq & _).
    exists q. split; [exact Hq|]. intros Hf.
    unfold _check_perceptual_similarity in Hq.
    destruct hash1, hash2; try congruence.
    apply andb_false_iff in Hf.
    destruct Hf as [Hf|Hf]; rewrite Hf in Hq;
      rewrite ?orb_true_r in Hq; simpl in Hq; congruence.
  - intros hash1 hash2.
    destruct (face_similarity_total hash1 hash2) as (q & Hq & _).
    exists q. split; [exact Hq|]. intros Hf.
    unfold _check_face_similarity in Hq.
    destruct hash1, hash2; try congruence.
    apply andb_false_iff in Hf.
    destruct Hf as [Hf|Hf]; rewrite Hf in Hq;
      rewrite ?orb_true_r in Hq; simpl in Hq; congruence.
  - reflexivity.
Qed.

Lemma verify_never_raises_witness :
  exists q,
    _check_perceptual_similarity (Some ""%string) (Some "zz"%string) = Ok q
    /\ q = 0.
Proof.
  destruct (proj1 (proj2 (proj2 verify_never_raises))
              (Some ""%string) (Some "zz"%string)) as (q & Hq & H0).
  exists q. split; [exact Hq | apply H0; reflexivity].
Defined.

End Verify.

(** ** Rounding *)

Section Rounding.

Lemma round_half_even_floor (q : Q) :
  (Qfloor q <= round_half_even q <= Qfloor q + 1)%Z.
Proof.
  unfold round_half_even.
  destruct (Qcompare (2 * (q - inject_Z (Qfloor q))) 1); [|lia|lia].
  destruct (Z.even (Qfloor q)); lia.
Qed.

Lemma round_half_even_ge (q : Q) (n : Z) :
  inject_Z n <= q -> (n <= round_half_even q)%Z.
Proof.
  intros H. apply Qfloor_resp_le in H. rewrite Qfloor_Z in H.
  pose proof (round_half_even_floor q). lia.
Qed.

Lemma round_half_even_le (q : Q) (n : Z) :
  q <= inject_Z n -> (round_half_even q <= n)%Z.
Proof.
  intros H. pose proof (Qfloor_resp_le _ _ H) as Hf. rewrite Qfloor_Z in Hf.
  destruct (Z.eq_dec (Qfloor q) n) as [E|E].
  - unfold round_half_even.
    assert (Hlt : 2 * (q - inject_Z (Qfloor q)) < 1).
    { rewrite E. lra. }
    rewrite (proj1 (Qlt_alt _ _) Hlt). lia.
  - pose proof (round_half_even_floor q). lia.
Qed.

#[global] Instance round_half_even_proper :
  Proper (Qeq ==> eq) round_half_even.
Proof.
  intros q q' H. unfold round_half_even.
  rewrite (Qfloor_comp _ _ H).
  assert (Hc : 2 * (q - inject_Z (Qfloor q'))
               == 2 * (q' - inject_Z (Qfloor q')))
    by (rewrite H; reflexivity).
  rewrite (Qcompare_comp _ _ Hc 1 1 (Qeq_refl 1)). reflexivity.
Qed.

#[global] Instance round1_proper : Proper (Qeq ==> Qeq) round1.
Proof.
  intros q q' H. unfold round1. rewrite H. reflexivity.
Qed.

Lemma round1_range (q : Q) : 0 <= q <= 100 -> 0 <= round1 q <= 100.
Proof.
  intros [H0 H100]. unfold round1.
  assert (Hlo : (0 <= round_half_even (q * 10))%Z).
  { apply round_half_even_ge. change (inject_Z 0) with 0. lra. }
  assert (Hhi : (round_half_even (q * 10) <= 1000)%Z).
  { apply round_half_even_le.
    change (inject_Z 1000) with 1000. lra. }
  rewrite Zle_Qle in Hlo, Hhi.
  change (inject_Z 0) with 0 in Hlo. change (inject_Z 1000) with 1000 in Hhi.
  split.
  - apply Qle_shift_div_l; lra.
  - apply Qle_shift_div_r; lra.
Qed.






End Rounding.

(** ** The aggregation *)

Section Aggregate.

Import TrustAggregator Spec.

Lemma bind_Ok {A B : Type} (m : result A) (k : A -> result B) (b : B) :
  m ≫= k = Ok b -> exists a, m = Ok a /\ k a = Ok b.
Proof.
  destruct m as [a|e]; [|discriminate]. intros H. exists a. split; auto.
Qed.

Lemma weights_image : getitem weights "image_analysis" = Ok (4 # 10).
Proof. reflexivity. Qed.

Lemma weights_fake_news : getitem weights "fake_news" = Ok (4 # 10).
Proof. reflexivity. Qed.

Lemma weights_sensitive : getitem weights "sensitive_content" = Ok (2 # 10).
Proof. reflexivity. Qed.

Lemma dict_truthy_empty : dict_truthy (Some ∅) = false.
Proof. reflexivity. Qed.

Lemma get_numeric (d : option Dict) (k : string) (dflt : Q) :
  numeric d k -> get d k (VNum dflt) = VNum (num_field d k dflt).
Proof.
  unfold numeric, get, num_field.
  destruct (default ∅ d !! k) as [[]|]; simpl; intros H;
    try reflexivity; destruct H.
Qed.

Lemma image_mapped_risk_get (image : option Dict) :
  image_mapped_risk image
  = match get image "classification" (VStr "unknown") with
    | VStr s =>
        if String.eqb s "deepfake" then 80
        else if String.eqb s "sensitive" then 40
        else if String.eqb s "real_safe" then 20
        else 50
    | _ => 50
    end.
Proof.
  unfold image_mapped_risk, get.
  destruct (default ∅ image !! "classification") as [[]|]; reflexivity.
Qed.

Lemma process_image_spec (image : option Dict) (a : Acc) :
  numeric image "confidence" ->
  exists a',
    process_image image a = Ok a'
    /\ unlabelled (acc_risk_scores a')
       = unlabelled (acc_risk_scores a)
         ++ (if dict_truthy image
             then [(image_mapped_risk image, 4 # 10)] else []).
Proof.
  intros Hc. unfold process_image.
  destruct (dict_truthy image).
  2:{ exists a. rewrite app_nil_r. split; reflexivity. }
  rewrite (get_numeric image "confidence" 0 Hc), weights_image.
  rewrite image_mapped_risk_get.
  destruct (get image "classification" (VStr "unknown")) as [| q | s |];
    cbn [eq_str format_value_1f mbind result_bind];
    try (eexists; split; [reflexivity|];
         cbn [acc_risk_scores]; unfold unlabelled; rewrite map_app;
         reflexivity).
  destruct (String.eqb s "deepfake");
    [|destruct (String.eqb s "sensitive");
      [|destruct (String.eqb s "real_safe")]];
    (eexists; split; [reflexivity|];
     cbn [acc_risk_scores]; unfold unlabelled; rewrite map_app; reflexivity).
Qed.

Lemma process_fake_news_spec (text : option Dict) (a : Acc) :
  numeric text "fake_news_likelihood" ->
  numeric text "credibility_score" ->
  exists a',
    process_fake_news text a = Ok a'
    /\ unlabelled (acc_risk_scores a')
       = unlabelled (acc_risk_scores a)
         ++ (if dict_truthy text
             then [(num_field text "fake_news_likelihood" 0, 4 # 10)]
             else []).
Proof.
  intros Hl Hc. unfold process_fake_news.
  destruct (dict_truthy text).
  2:{ exists a. rewrite app_nil_r. split; reflexivity. }
  rewrite (get_numeric text "fake_news_likelihood" 0 Hl),
    (get_numeric text "credibility_score" 50 Hc), weights_fake_news.
  cbn [as_num gt format_value_1f mbind result_bind].
  destruct (Qlt_bool 50 (num_field text "fake_news_likelihood" 0));
    [|destruct (Qlt_bool 60 (num_field text "credibility_score" 50))];
    (eexists; split; [reflexivity|];
     cbn [acc_risk_scores]; unfold unlabelled; rewrite map_app; reflexivity).
Qed.

Lemma process_sensitive_spec (safety : option Dict) (a : Acc) :
  numeric safety "sensitive_score" ->
  exists a',
    process_sensitive safety a = Ok a'
    /\ unlabelled (acc_risk_scores a')
       = unlabelled (acc_risk_scores a)
         ++ (if dict_truthy safety
             then [(num_field safety "sensitive_score" 0, 2 # 10)]
             else []).
Proof.
  intros Hs. unfold process_sensitive.
  destruct (dict_truthy safety).
  2:{ exists a. rewrite app_nil_r. split; reflexivity. }
  rewrite (get_numeric safety "sensitive_score" 0 Hs), weights_sensitive.
  cbn [as_num mbind result_bind].
  eexists; split; [reflexivity|].
  cbn [acc_risk_scores]. unfold unlabelled. rewrite map_app. reflexivity.
Qed.

Lemma fold_left_Qplus (l : list Q) (a : Q) :
  fold_left Qplus l a == a + total l.
Proof.
  revert a. induction l as [|x l IH]; intros a; simpl.
  - ring.
  - rewrite IH. unfold total. simpl. ring.
Qed.

Lemma sum_total (l : list Q) : sum l == total l.
Proof. unfold sum. rewrite fold_left_Qplus. ring. Qed.

Lemma map_risk_weight (scores : list (string * Q * Q)) :
  map (fun '(_, risk, weight) => risk * weight) scores
  = map (fun rw => fst rw * snd rw) (unlabelled scores).
Proof.
  unfold unlabelled. rewrite map_map. apply map_ext.
  intros [[n r] w]. reflexivity.
Qed.

Lemma map_weight (scores : list (string * Q * Q)) :
  map (fun '(_, _, weight) => weight) scores = map snd (unlabelled scores).
Proof.
  unfold unlabelled. rewrite map_map. apply map_ext.
  intros [[n r] w]. reflexivity.
Qed.



Lemma weighted_risk_spec (scores : list (string * Q * Q)) :
  (forall x, In x (unlabelled scores) -> 0 < snd x) ->
  exists r,
    weighted_risk scores = Ok r
    /\ r == match unlabelled scores with
            | [] => 50
            | l => weighted_average l
            end.
Proof.
  intros Hw. destruct scores as [|x scores].
  - exists 50. split; reflexivity.
  - unfold weighted_risk. rewrite map_risk_weight, map_weight.
    set (l := unlabelled (x :: scores)) in *.
    assert (Hpos : 0 < total (map snd l)).
    { clear -Hw. assert (Hne : l <> []) by (subst l; discriminate).
      induction l as [|[r w] l IH]; [congruence|].
      pose proof (Hw (r, w) (or_introl eq_refl)) as Hrw. simpl in Hrw.
      unfold total in *. simpl. destruct l as [|y l].
      - simpl. lra.
      - assert (0 < fold_right Qplus 0 (map snd (y :: l))).
        { apply IH; [|discriminate]. intros z Hz. apply Hw. now right. }
        lra. }
    assert (Hlt : Qlt_bool 0 (sum (map snd l)) = true).
    { apply Qlt_bool_iff. rewrite sum_total. exact Hpos. }
    rewrite Hlt. rewrite truediv_ok.
    2:{ rewrite sum_total. lra. }
    eexists. split; [reflexivity|].
    unfold weighted_average. rewrite !sum_total.
    subst l. reflexivity.
Qed.

Lemma channels_weights (image text safety : option Dict) (x : Q * Q) :
  In x (channels image text safety) -> 0 < snd x.
Proof.
  unfold channels. rewrite !in_app_iff.
  destruct (dict_truthy image), (dict_truthy text), (dict_truthy safety);
    simpl; intros H;
    repeat match goal with
      | H : _ \/ _ |- _ => destruct H
      | H : False |- _ => destruct H
      | H : (_, _) = x |- _ => subst x; reflexivity
      end.
Qed.




Lemma lookup_truthy (d : Dict) (k : string) (v : value) :
  d !! k = Some v -> dict_truthy (Some d) = true.
Proof.
  intros H. simpl. apply negb_true_iff, Nat.eqb_neq. intros Hs.
  apply map_size_empty_iff in Hs. subst d. rewrite lookup_empty in H.
  discriminate.
Qed.

Lemma is_deepfake_iff (image : option Dict) :
  is_deepfake image = true <-> classified_deepfake image.
Proof.
  unfold is_deepfake, classified_deepfake, get. split.
  - intros H. apply andb_true_iff in H. destruct H as [Ht He].
    destruct image as [d|]; [|discriminate]. exists d.
    split; [reflexivity|]. simpl in He.
    destruct (d !! "classification") as [[| q | s |]|]; try discriminate.
    simpl in He. apply String.eqb_eq in He. subst s. reflexivity.
  - intros (d & -> & Hd). rewrite (lookup_truthy d _ _ Hd).
    simpl. rewrite Hd. reflexivity.
Qed.

Lemma likelihood_gt_spec (text : option Dict) (c : Q) :
  numeric text "fake_news_likelihood" ->
  likelihood_gt text c
  = Ok (dict_truthy text
        && Qlt_bool c (num_field text "fake_news_likelihood" 0)).
Proof.
  intros H. unfold likelihood_gt.
  destruct (dict_truthy text); [|reflexivity].
  rewrite (get_numeric text "fake_news_likelihood" 0 H). reflexivity.
Qed.

Lemma likelihood_above_iff (text : option Dict) (c : Q) :
  0 <= c ->
  numeric text "fake_news_likelihood" ->
  dict_truthy text && Qlt_bool c (num_field text "fake_news_likelihood" 0)
  = true
  <-> likelihood_above text c.
Proof.
  intros Hc Hn. unfold likelihood_above, num_field, numeric in *. split.
  - intros H. apply andb_true_iff in H. destruct H as [Ht Hq].
    destruct text as [d|]; [|discriminate]. simpl in *.
    destruct (d !! "fake_news_likelihood") as [[| q | s |]|] eqn:E;
      try destruct Hn.
    + exists d, q. apply Qlt_bool_iff in Hq. auto.
    + apply Qlt_bool_iff in Hq. lra.
  - intros (d & q & -> & Hd & Hq). rewrite (lookup_truthy d _ _ Hd).
    simpl. rewrite Hd. apply Qlt_bool_iff, Hq.
Qed.

Lemma determine_threat_category_total (r : Q) (image text : option Dict) :
  numeric text "fake_news_likelihood" ->
  exists cat, _determine_threat_category r image text = Ok cat.
Proof.
  intros H. unfold _determine_threat_category.
  rewrite !(likelihood_gt_spec text _ H).
  cbn [mbind result_bind].
  repeat match goal with
    | |- context [if ?b then _ else _] => destruct b
    end; eexists; reflexivity.
Qed.

Lemma generate_recommendations_total (r : Q) (cat : string)
  (image text : option Dict) :
  numeric text "fake_news_likelihood" ->
  exists recs, _generate_recommendations r cat image text = Ok recs.
Proof.
  intros H. unfold _generate_recommendations.
  rewrite (likelihood_gt_spec text _ H). cbn [mbind result_bind].
  eexists. reflexivity.
Qed.

Lemma overall_confidence_spec (image text : option Dict) :
  numeric image "confidence" ->
  numeric text "uncertain" ->
  exists c,
    overall_confidence_of image text = Ok c
    /\ c == expected_confidence image text.
Proof.
  intros Hi Ht.
  unfold overall_confidence_of, expected_confidence, available_confidences.
  destruct (dict_truthy image), (dict_truthy text);
    rewrite ?(get_numeric image "confidence" 0 Hi),
      ?(get_numeric text "uncertain" 50 Ht);
    cbn [as_num mbind result_bind app sum_values sum_values_from length];
    unfold truediv;
    match goal with
    | |- context [Qeq_bool ?x 0] => change (Qeq_bool x 0) with false
    | _ => idtac
    end;
    cbv iota; eexists; (split; [reflexivity|]);
    unfold average, total; simpl fold_right; simpl length;
    try reflexivity; field; discriminate.
Qed.

(** What [aggregate] returns when the numeric fields hold numbers. *)
Lemma aggregate_spec (image text safety : option Dict) :
  well_typed image text safety ->
  exists v r c,
    aggregate image text safety = Ok v
    /\ overall_trust_risk v = round1 r
    /\ r == expected_risk image text safety
    /\ _determine_threat_category r image text = Ok (threat_category v)
    /\ confidence v = round1 c
    /\ c == expected_confidence image text.
Proof.
  intros (Hconf & Hlik & Hcred & Hunc & Hsens).
  unfold aggregate.
  destruct (process_image_spec image
              {| acc_module_results := ∅; acc_risk_scores := [];
                 acc_explanations := [] |} Hconf) as (a1 & -> & E1).
  cbn [mbind result_bind].
  destruct (process_fake_news_spec text a1 Hlik Hcred) as (a2 & -> & E2).
  cbn [mbind result_bind].
  destruct (process_sensitive_spec safety a2 Hsens) as (a3 & -> & E3).
  cbn [mbind result_bind].
  assert (Hch : unlabelled (acc_risk_scores a3) = channels image text safety).
  { rewrite E3, E2, E1. unfold channels. cbn [acc_risk_scores unlabelled map].
    rewrite app_nil_l, app_assoc. reflexivity. }
  destruct (weighted_risk_spec (acc_risk_scores a3)) as (r & -> & Hr).
  { intros x Hx. rewrite Hch in Hx.
    apply (channels_weights image text safety x Hx). }
  cbn [mbind result_bind].
  destruct (determine_threat_category_total r image text Hlik) as (cat & Hcat).
  rewrite Hcat. cbn [mbind result_bind].
  destruct (overall_confidence_spec image text Hconf Hunc) as (c & -> & Hc).
  cbn [mbind result_bind].
  destruct (generate_recommendations_total r cat image text Hlik)
    as (recs & ->).
  cbn [mbind result_bind].
  eexists. exists r, c. split; [reflexivity|].
  cbn [overall_trust_risk threat_category confidence].
  repeat split; try assumption.
  rewrite Hr, Hch. reflexivity.
Qed.

Lemma Qle_bool_false (x y : Q) : Qle_bool x y = false -> y < x.
Proof.
  intros H. apply Qnot_le_lt. intros Hle. apply Qle_bool_iff in Hle.
  congruence.
Qed.

Lemma Qle_bool_proper (x y y' : Q) : y == y' -> Qle_bool x y = Qle_bool x y'.
Proof.
  intros H. destruct (Qle_bool x y') eqn:E.
  - apply Qle_bool_iff. apply Qle_bool_iff in E. rewrite H. exact E.
  - apply Qle_bool_false in E. destruct (Qle_bool x y) eqn:E'; [|reflexivity].
    apply Qle_bool_iff in E'. rewrite H in E'. lra.
Qed.

Lemma determine_threat_category_proper (r r' : Q) (image text : option Dict) :
  r == r' ->
  _determine_threat_category r image text
  = _determine_threat_category r' image text.
Proof.
  intros H. unfold _determine_threat_category.
  rewrite !(Qle_bool_proper _ r r' H). reflexivity.
Qed.







(** C7, as the code has it: with all three inputs absent [aggregate]
    returns the overall risk 50, the category "Medium: Moderate Risk" (not
    "Low-Medium: Some Concerns") and the explanation
    "No analysis data available". *)
Theorem aggregate_no_inputs :
  returns (aggregate None None None)
    (fun v =>
       overall_trust_risk v == 50
       /\ threat_category v = "Medium: Moderate Risk"%string
       /\ threat_category v <> "Low-Medium: Some Concerns"%string
       /\ explanation v = "No analysis data available"%string).
Proof.
  vm_compute. repeat split. discriminate.
Qed.

(** C7 as stated fails on the explanation: it is not the literal
    "no analysis data available". *)
Lemma aggregate_no_inputs_explanation_case :
  returns (aggregate None None None)
    (fun v => explanation v <> "no analysis data available"%string).
Proof.
  vm_compute. discriminate.
Qed.




(** C10: an empty mapping is treated like an absent channel: [aggregate]
    returns the same result, with no entry for the channel in the
    per-module breakdown; with three empty mappings it returns what it
    returns with all three inputs absent. *)
Theorem aggregate_empty_as_absent (image text safety : option Dict) :
  aggregate (Some ∅) text safety = aggregate None text safety
  /\ aggregate image (Some ∅) safety = aggregate image None safety
  /\ aggregate image text (Some ∅) = aggregate image text None
  /\ aggregate (Some ∅) (Some ∅) (Some ∅) = aggregate None None None
  /\ (forall a : Acc,
        process_image (Some ∅) a = Ok a
        /\ process_fake_news (Some ∅) a = Ok a
        /\ process_sensitive (Some ∅) a = Ok a).
Proof.
  repeat split; reflexivity.
Qed.

End Aggregate.

(** * Further properties of [modules/verification.py] *)

Section SimilarityFacts.

Import VerificationEngine Spec.

Lemma matching_sym (s1 s2 : string) :
  matching_position_count s1 s2 = matching_position_count s2 s1.
Proof.
  revert s2. induction s1 as [|a r1 IH]; intros [|b r2]; try reflexivity.
  simpl. rewrite (Ascii.eqb_sym a b), IH. reflexivity.
Qed.

Lemma matching_le_min (s1 s2 : string) :
  (matching_position_count s1 s2
   <= Nat.min (String.length s1) (String.length s2))%nat.
Proof. pose proof (matching_plus_mismatched s1 s2). lia. Qed.

Lemma matching_full (s1 s2 : string) :
  String.length s1 = String.length s2 ->
  matching_position_count s1 s2 = String.length s1 -> s1 = s2.
Proof.
  revert s2. induction s1 as [|a r1 IH]; intros [|b r2]; try discriminate.
  - reflexivity.
  - simpl. intros Hlen Hm. injection Hlen as Hlen.
    pose proof (matching_le_min r1 r2) as Hle.
    destruct (Ascii.eqb a b) eqn:E; [|lia].
    apply Ascii.eqb_eq in E. subst b.
    rewrite (IH r2); [reflexivity | exact Hlen | lia].
Qed.

(** Value of the ratio both similarity functions compute. *)
Lemma ratio_100_iff (h1 h2 : string) :
  h1 <> ""%string -> h2 <> ""%string ->
  of_nat (matching_position_count h1 h2)
  / of_nat (Nat.max (String.length h1) (String.length h2)) * 100 == 100
  <-> h1 = h2.
Proof.
  intros H1 H2. pose proof (length_pos h1 H1) as L1.
  pose proof (length_pos h2 H2) as L2.
  set (m := matching_position_count h1 h2).
  set (n := Nat.max (String.length h1) (String.length h2)).
  assert (Hn : 0 < of_nat n) by (apply of_nat_pos; subst n; lia).
  split.
  - intros H.
    assert (Hmn : of_nat m == of_nat n).
    { assert (E : of_nat m == of_nat m / of_nat n * 100 * (of_nat n / 100))
        by (field; lra).
      rewrite E, H. field. }
    unfold of_nat, Qeq in Hmn. simpl in Hmn.
    assert (Hmn' : m = n) by lia.
    pose proof (matching_le_min h1 h2) as Hle. fold m in Hle.
    apply matching_full; subst m n; lia.
  - intros <-. subst m n. rewrite matching_refl, Nat.max_id.
    rewrite Nat.max_id in Hn. field. lra.
Qed.

(** X1: both similarity functions are symmetric in their two hashes. *)
Theorem similarity_symmetric (hash1 hash2 : option string) :
  (exists q q',
      _check_perceptual_similarity hash1 hash2 = Ok q
      /\ _check_perceptual_similarity hash2 hash1 = Ok q' /\ q == q')
  /\ (exists q q',
        _check_face_similarity hash1 hash2 = Ok q
        /\ _check_face_similarity hash2 hash1 = Ok q' /\ q == q').
Proof.
  destruct (truthy hash1) eqn:T1, (truthy hash2) eqn:T2.
  - apply truthy_present in T1, T2.
    destruct T1 as (h1 & -> & H1), T2 as (h2 & -> & H2).
    split.
    + destruct (perceptual_similarity_value h1 h2 H1 H2) as (q & Hq & E).
      destruct (perceptual_similarity_value h2 h1 H2 H1) as (q' & Hq' & E').
      exists q, q'. repeat split; try assumption.
      rewrite E, E', matching_sym, Nat.max_comm. reflexivity.
    + destruct (face_similarity_value h1 h2 H1 H2) as (q & Hq & E).
      destruct (face_similarity_value h2 h1 H2 H1) as (q' & Hq' & E').
      exists q, q'. repeat split; try assumption.
      rewrite E, E', matching_sym, Nat.max_comm. reflexivity.
  - split; exists 0, 0;
      unfold _check_perceptual_similarity, _check_face_similarity;
      destruct hash1, hash2; rewrite ?T1, ?T2; repeat split; reflexivity.
  - split; exists 0, 0;
      unfold _check_perceptual_similarity, _check_face_similarity;
      destruct hash1, hash2; rewrite ?T1, ?T2; repeat split; reflexivity.
  - split; exists 0, 0;
      unfold _check_perceptual_similarity, _check_face_similarity;
      destruct hash1, hash2; rewrite ?T1, ?T2; repeat split; reflexivity.
Qed.

(** X2: for two non-empty hashes, either similarity is 100 exactly when the
    two hashes are the same string. *)
Theorem similarity_100_iff_identical (h1 h2 : string) :
  h1 <> ""%string -> h2 <> ""%string ->
  returns (_check_perceptual_similarity (Some h1) (Some h2))
    (fun q => q == 100 <-> h1 = h2)
  /\ returns (_check_face_similarity (Some h1) (Some h2))
       (fun q => q == 100 <-> h1 = h2).
Proof.
  intros H1 H2. split.
  - destruct (perceptual_similarity_value h1 h2 H1 H2) as (q & -> & E).
    simpl. rewrite E. apply ratio_100_iff; assumption.
  - destruct (face_similarity_value h1 h2 H1 H2) as (q & -> & E).
    simpl. rewrite E. apply ratio_100_iff; assumption.
Qed.

Lemma similarity_100_iff_identical_witness :
  returns (_check_perceptual_similarity (Some "0f0f"%string)
             (Some "0f0e"%string))
    (fun q => q == 100 <-> "0f0f"%string = "0f0e"%string)
  /\ returns (_check_face_similarity (Some "0f0f"%string)
                (Some "0f0e"%string))
       (fun q => q == 100 <-> "0f0f"%string = "0f0e"%string).
Proof.
  apply (similarity_100_iff_identical "0f0f" "0f0e"); discriminate.
Defined.

End SimilarityFacts.

Section ExactMatchFacts.

Import VerificationEngine Spec.

Lemma lower_ascii_idempotent (c : ascii) :
  lower_ascii (lower_ascii c) = lower_ascii c.
Proof.
  destruct c as [[] [] [] [] [] [] [] []]; reflexivity.
Qed.

Lemma lower_idempotent (s : string) : lower (lower s) = lower s.
Proof.
  unfold lower. rewrite list_ascii_of_string_of_list_ascii, map_map.
  f_equal. apply map_ext. intros c. apply lower_ascii_idempotent.
Qed.

Lemma lower_nonempty (s : string) : s <> ""%string -> lower s <> ""%string.
Proof. intros H E. apply H, lower_empty, E. Qed.

Lemma check_exact_match_true (hash1 hash2 : option string) :
  _check_exact_match hash1 hash2 = true
  <-> exists h1 h2,
        hash1 = Some h1 /\ hash2 = Some h2
        /\ h1 <> ""%string /\ h2 <> ""%string /\ lower h1 = lower h2.
Proof.
  unfold _check_exact_match. split.
  - destruct hash1 as [h1|], hash2 as [h2|]; try discriminate.
    destruct (truthy (Some h1)) eqn:T1; [|discriminate].
    destruct (truthy (Some h2)) eqn:T2; [|discriminate].
    simpl. intros E. apply String.eqb_eq in E.
    apply truthy_Some in T1, T2. exists h1, h2. auto.
  - intros (h1 & h2 & -> & -> & H1 & H2 & E).
    rewrite (proj2 (truthy_Some h1) H1), (proj2 (truthy_Some h2) H2).
    simpl. apply String.eqb_eq, E.
Qed.

(** X3: the exact-hash test ignores the case of letters, is symmetric and
    transitive, and fails whenever a hash is missing or empty. *)
Theorem check_exact_match_equivalence :
  (forall h : string,
      h <> ""%string -> _check_exact_match (Some (lower h)) (Some h) = true)
  /\ (forall hash1 hash2 : option string,
        _check_exact_match hash1 hash2 = _check_exact_match hash2 hash1)
  /\ (forall hash1 hash2 hash3 : option string,
        _check_exact_match hash1 hash2 = true ->
        _check_exact_match hash2 hash3 = true ->
        _check_exact_match hash1 hash3 = true)
  /\ (forall hash1 hash2 : option string,
        truthy hash1 && truthy hash2 = false ->
        _check_exact_match hash1 hash2 = false).
Proof.
  split; [|split; [|split]].
  - intros h Hh. apply check_exact_match_true.
    exists (lower h), h. repeat split; try assumption.
    + apply lower_nonempty, Hh.
    + apply lower_idempotent.
  - intros hash1 hash2.
    destruct (_check_exact_match hash2 hash1) eqn:E.
    + apply check_exact_match_true in E.
      destruct E as (h2 & h1 & -> & -> & H2 & H1 & E).
      apply check_exact_match_true. exists h1, h2. auto.
    + destruct (_check_exact_match hash1 hash2) eqn:E'; [|reflexivity].
      apply check_exact_match_true in E'.
      destruct E' as (h1 & h2 & -> & -> & H1 & H2 & E').
      assert (_check_exact_match (Some h2) (Some h1) = true).
      { apply check_exact_match_true. exists h2, h1. auto. }
      congruence.
  - intros hash1 hash2 hash3 H12 H23.
    apply check_exact_match_true in H12, H23.
    destruct H12 as (h1 & h2 & -> & -> & H1 & H2 & E12).
    destruct H23 as (h2' & h3 & [= <-] & -> & _ & H3 & E23).
    apply check_exact_match_true. exists h1, h3.
    repeat split; try assumption. congruence.
  - intros hash1 hash2 Hf.
    destruct (_check_exact_match hash1 hash2) eqn:E; [|reflexivity].
    apply check_exact_match_true in E.
    destruct E as (h1 & h2 & -> & -> & H1 & H2 & _).
    rewrite (proj2 (truthy_Some h1) H1), (proj2 (truthy_Some h2) H2) in Hf.
    discriminate.
Qed.

Lemma check_exact_match_equivalence_witness :
  _check_exact_match (Some (lower "AbC9")) (Some "AbC9"%string) = true
  /\ _check_exact_match (Some "ABC"%string) (Some "abc"%string) = true
  /\ _check_exact_match (Some ""%string) (Some "abc"%string) = false.
Proof.
  destruct check_exact_match_equivalence as (Hcase & _ & Htrans & Hmiss).
  split; [apply Hcase; discriminate|].
  split.
  - apply (Htrans (Some "ABC"%string) (Some "aBc"%string)
             (Some "abc"%string)); reflexivity.
  - apply Hmiss. reflexivity.
Defined.

End ExactMatchFacts.

Section DecisionFacts.

Import VerificationEngine Spec.

Variable cand : Fingerprint.

Lemma in_comparisons (reg : list Protected) (c : Comparison) :
  In c (comparisons cand reg) ->
  In (c_entry c) reg
  /\ (c_type c = "perceptual"%string /\ c_sim c = perceptual_sim cand (c_entry c)
      \/ c_type c = "face"%string
         /\ face_compared cand (c_entry c) = true
         /\ c_sim c = face_sim cand (c_entry c)).
Proof.
  unfold comparisons. rewrite in_flat_map. intros (e & He & Hc).
  unfold comparisons_of in Hc. destruct Hc as [<-|Hc].
  - simpl. auto.
  - destruct (face_compared cand e) eqn:F; [|destruct Hc].
    destruct Hc as [<-|[]]. simpl. auto.
Qed.

Lemma perceptual_in_comparisons (reg : list Protected) (e : Protected) :
  In e reg ->
  In {| c_sim := perceptual_sim cand e; c_type := "perceptual";
        c_entry := e |} (comparisons cand reg).
Proof.
  intros He. unfold comparisons. rewrite in_flat_map. exists e.
  split; [exact He | now left].
Qed.

Lemma face_in_comparisons (reg : list Protected) (e : Protected) :
  In e reg -> face_compared cand e = true ->
  In {| c_sim := face_sim cand e; c_type := "face"; c_entry := e |}
    (comparisons cand reg).
Proof.
  intros He Hf. unfold comparisons. rewrite in_flat_map. exists e.
  split; [exact He|]. unfold comparisons_of. rewrite Hf. right. now left.
Qed.

(** The tracked best of a scan: nothing, or one of the comparisons. *)
Lemma best_cases (reg : list Protected) :
  let b := track (comparisons cand reg) Best_init in
  (forall c, In c (comparisons cand reg) -> c_sim c <= best_similarity b)
  /\ 0 <= best_similarity b <= 100
  /\ (b = Best_init
      \/ exists c, In c (comparisons cand reg) /\ b = tracked c).
Proof.
  intros b. subst b.
  destruct (track_upper (comparisons cand reg) Best_init) as [H0 Hup].
  split; [exact Hup|].
  destruct (track_attained (comparisons cand reg) Best_init)
    as [H | (c & Hc & H)].
  - split; [|now left]. rewrite H. simpl. split; discriminate.
  - split; [|right; exists c; auto]. rewrite H. simpl.
    apply (sim_bounds cand reg c Hc).
Qed.

Lemma verify_no_exact_decision (reg : list Protected) :
  (forall e, In e reg -> exact cand e = false) ->
  let b := track (comparisons cand reg) Best_init in
  exists d,
    verify cand reg = Ok d
    /\ similarity d = best_similarity b
    /\ match_found d = Qle_bool 85 (best_similarity b)
    /\ (match_found d = true ->
        match_type d = best_match_type b
        /\ matched_fingerprint d = best_match b)
    /\ (match_found d = false ->
        match_type d = None /\ matched_fingerprint d = None).
Proof.
  intros Hno. destruct reg as [|e reg].
  - eexists. split; [reflexivity|]. simpl.
    repeat split; discriminate.
  - unfold verify. rewrite (scan_comparisons cand (e :: reg) Best_init Hno).
    generalize (track (comparisons cand (e :: reg)) Best_init). intros b.
    unfold mbind, result_bind. cbv zeta.
    assert (Ht : Qle_bool (perceptual_similarity_threshold * 100)
                   (best_similarity b)
                 = Qle_bool 85 (best_similarity b)).
    { destruct (Qle_bool 85 (best_similarity b)) eqn:E.
      - apply Qle_bool_iff in E. apply Qle_bool_iff.
        unfold perceptual_similarity_threshold. lra.
      - apply Qle_bool_false in E.
        destruct (Qle_bool (perceptual_similarity_threshold * 100)
                    (best_similarity b)) eqn:E'; [|reflexivity].
        apply Qle_bool_iff in E'. unfold perceptual_similarity_threshold in E'.
        lra. }
    rewrite Ht. destruct (Qle_bool 85 (best_similarity b)) eqn:E.
    + eexists. split; [reflexivity|]. simpl.
      split; [reflexivity|]. split; [reflexivity|].
      split; [auto | discriminate].
    + eexists. split; [reflexivity|]. simpl.
      split; [reflexivity|]. split; [reflexivity|].
      split; [discriminate | auto].
Qed.

(** When [verify] reports a match. *)
Lemma verify_found_iff (reg : list Protected) :
  exists d,
    verify cand reg = Ok d
    /\ (match_found d = true
        <-> (exists e, In e reg /\ exact cand e = true)
            \/ (exists c, In c (comparisons cand reg) /\ 85 <= c_sim c)).
Proof.
  destruct (first_true (exact cand) reg)
    as [Hno | (pre & e & post & -> & Hpre & He)].
  - destruct (verify_no_exact_decision reg Hno) as (d & Hd & Hs & Hf & _).
    destruct (best_cases reg) as (Hup & _ & Hatt).
    exists d. split; [exact Hd|]. rewrite Hf. split.
    + intros H. apply Qle_bool_iff in H. right.
      destruct Hatt as [E | (c & Hc & E)].
      * rewrite E in H. apply Qle_bool_iff in H. discriminate.
      * exists c. split; [exact Hc|]. rewrite E in H. exact H.
    + intros [(e & He & Hex) | (c & Hc & H85)].
      * rewrite (Hno e He) in Hex. discriminate.
      * apply Qle_bool_iff. specialize (Hup c Hc). lra.
  - exists (exact_decision e). split; [apply verify_exact; assumption|].
    split; [|reflexivity]. intros _. left. exists e.
    split; [apply in_elt | exact He].
Qed.

End DecisionFacts.

Section VerifyFacts.

Import VerificationEngine Spec.

(** X4: the decision of [verify] is coherent: the similarity lies in
    [[0, 100]]; a reported match has similarity at least 85, one of the three
    match types and an entry of the registry; a refused one has similarity
    below 85, no match type and no entry. *)
Theorem verify_decision_coherent (cand : Fingerprint)
  (reg : list Protected) :
  exists d,
    verify cand reg = Ok d
    /\ 0 <= similarity d <= 100
    /\ (match_found d = true ->
        85 <= similarity d
        /\ (exists e, In e reg /\ matched_fingerprint d = Some e)
        /\ (match_type d = Some "exact"%string
            \/ match_type d = Some "perceptual"%string
            \/ match_type d = Some "face"%string))
    /\ (match_found d = false ->
        similarity d < 85
        /\ match_type d = None /\ matched_fingerprint d = None).
Proof.
  destruct (first_true (exact cand) reg)
    as [Hno | (pre & e & post & -> & Hpre & He)].
  - destruct (verify_no_exact_decision cand reg Hno)
      as (d & Hd & Hs & Hf & Hm & Hn).
    destruct (best_cases cand reg) as (_ & Hrange & Hatt).
    exists d. split; [exact Hd|]. rewrite Hs.
    split; [exact Hrange|]. split.
    + intros Ht. destruct (Hm Ht) as [Hty Hent].
      rewrite Ht in Hf. symmetry in Hf. apply Qle_bool_iff in Hf.
      split; [exact Hf|]. rewrite Hty, Hent.
      destruct Hatt as [E | (c & Hc & E)].
      * rewrite E in Hf. apply Qle_bool_iff in Hf. discriminate.
      * rewrite E. simpl.
        destruct (in_comparisons cand reg c Hc) as [Hin Hc'].
        split; [exists (c_entry c); auto|].
        destruct Hc' as [[-> _] | (-> & _)]; auto.
    + intros Hfalse. split; [|apply Hn, Hfalse].
      rewrite Hfalse in Hf. symmetry in Hf. apply Qle_bool_false, Hf.
  - exists (exact_decision e). split; [apply verify_exact; assumption|].
    simpl. split; [split; discriminate|]. split; [|discriminate].
    intros _. split; [discriminate|]. split; [|now left].
    exists e. split; [apply in_elt | reflexivity].
Qed.

Lemma verify_decision_coherent_witness :
  exists d,
    verify Inputs.cand_AB [Inputs.entry_A; Inputs.entry_B] = Ok d
    /\ match_found d = true
    /\ 85 <= similarity d
    /\ (exists e, In e [Inputs.entry_A; Inputs.entry_B]
                  /\ matched_fingerprint d = Some e).
Proof.
  destruct (verify_decision_coherent Inputs.cand_AB
              [Inputs.entry_A; Inputs.entry_B]) as (d & Hd & _ & Ht & _).
  exists d. split; [exact Hd|].
  assert (Hfound : match_found d = true).
  { revert Hd. vm_compute. intros [= <-]. reflexivity. }
  split; [exact Hfound|].
  destruct (Ht Hfound) as (H85 & He & _). auto.
Defined.

(** X5: whether [verify] reports a match depends on which entries the
    registry holds, not on their order: a match still is one when entries
    are added, and a permutation of the registry gives the same
    [match_found]. *)
Theorem verify_match_found_order_free (cand : Fingerprint)
  (reg reg' : list Protected) :
  (incl reg reg' ->
   returns (verify cand reg) (fun d => match_found d = true) ->
   returns (verify cand reg') (fun d' => match_found d' = true))
  /\ (Permutation reg reg' ->
      returns (verify cand reg)
        (fun d => returns (verify cand reg')
                    (fun d' => match_found d = match_found d'))).
Proof.
  assert (Hmono : forall r r', incl r r' ->
            returns (verify cand r) (fun d => match_found d = true) ->
            returns (verify cand r') (fun d' => match_found d' = true)).
  { intros r r' Hincl.
    destruct (verify_found_iff cand r) as (d & -> & Hd).
    destruct (verify_found_iff cand r') as (d' & -> & Hd').
    simpl. intros H. apply Hd'. apply Hd in H.
    destruct H as [(e & He & Hex) | (c & Hc & H85)].
    - left. exists e. split; [apply Hincl, He | exact Hex].
    - right. exists c. split; [|exact H85].
      unfold comparisons in *. rewrite in_flat_map in *.
      destruct Hc as (e & He & Hc). exists e. split; [apply Hincl, He|].
      exact Hc. }
  split; [apply Hmono|].
  intros Hperm.
  pose proof (Hmono reg reg') as H1. pose proof (Hmono reg' reg) as H2.
  destruct (verify_found_iff cand reg) as (d & Hv & _).
  destruct (verify_found_iff cand reg') as (d' & Hv' & _).
  rewrite Hv, Hv' in *. simpl in *.
  assert (I1 : incl reg reg')
    by (intros x Hx; apply (Permutation_in x Hperm Hx)).
  assert (I2 : incl reg' reg)
    by (intros x Hx; apply (Permutation_in x (Permutation_sym Hperm) Hx)).
  destruct (match_found d) eqn:E, (match_found d') eqn:E'; try reflexivity.
  - symmetry. apply H1; [exact I1 | reflexivity].
  - apply H2; [exact I2 | reflexivity].
Qed.

Lemma verify_match_found_order_free_witness :
  returns (verify Inputs.cand_AB [Inputs.entry_B; Inputs.entry_A])
    (fun d' => match_found d' = true)
  /\ returns (verify Inputs.cand_AB [Inputs.entry_A; Inputs.entry_B])
       (fun d => returns (verify Inputs.cand_AB
                            [Inputs.entry_B; Inputs.entry_A])
                   (fun d' => match_found d = match_found d')).
Proof.
  split.
  - apply (proj1 (verify_match_found_order_free Inputs.cand_AB
                    [Inputs.entry_A] [Inputs.entry_B; Inputs.entry_A])).
    + intros x [<-|[]]. right. now left.
    + vm_compute. reflexivity.
  - apply (proj2 (verify_match_found_order_free Inputs.cand_AB
                    [Inputs.entry_A; Inputs.entry_B]
                    [Inputs.entry_B; Inputs.entry_A])).
    apply perm_swap.
Defined.

(** X6: a fingerprint that was added to the registry is found again: when
    it has a non-empty exact hash or a non-empty perceptual hash and some
    entry of the registry holds it, [verify] reports a match with
    similarity 100. *)
Theorem verify_registered_fingerprint_found (fp : Fingerprint)
  (reg : list Protected) (e : Protected) :
  In e reg -> fingerprint e = Some fp ->
  truthy (get fp "sha256") || truthy (get fp "perceptual_hash") = true ->
  exists d,
    verify fp reg = Ok d /\ match_found d = true /\ similarity d == 100.
Proof.
  intros He Hfp Hhash.
  assert (Hefp : entry_fp e = fp) by (unfold entry_fp; rewrite Hfp; reflexivity).
  destruct (first_true (exact fp) reg)
    as [Hno | (pre & x & post & -> & Hpre & Hx)].
  - assert (Hsha : truthy (get fp "sha256") = false).
    { destruct (truthy (get fp "sha256")) eqn:T; [|reflexivity].
      apply truthy_present in T. destruct T as (h & Hh & Hne).
      assert (Hex : exact fp e = true).
      { apply exact_true_iff. exists h, h. rewrite Hefp. auto. }
      rewrite (Hno e He) in Hex. discriminate. }
    rewrite Hsha in Hhash. simpl in Hhash.
    apply truthy_present in Hhash. destruct Hhash as (p & Hp & Hne).
    assert (H100 : perceptual_sim fp e == 100).
    { apply (perceptual_sim_same fp e p); [exact Hp | exact Hne|].
      rewrite Hefp. exact Hp. }
    destruct (verify_no_exact_decision fp reg Hno) as (d & Hd & Hs & Hf & _).
    destruct (best_cases fp reg) as (Hup & Hrange & _).
    pose proof (Hup _ (perceptual_in_comparisons fp reg e He)) as Hge.
    simpl in Hge. rewrite H100 in Hge.
    exists d. split; [exact Hd|]. rewrite Hf, Hs. split.
    + apply Qle_bool_iff. lra.
    + apply Qle_antisym; [apply Hrange | exact Hge].
  - exists (exact_decision x). split; [apply verify_exact; assumption|].
    split; reflexivity.
Qed.

Lemma verify_registered_fingerprint_found_witness :
  exists d,
    verify (Inputs.fp (Some "ab"%string) (Some "0123456789abcdef"%string)
              (Some "f00d"%string))
      [Inputs.entry_A; Inputs.entry_AB] = Ok d
    /\ match_found d = true /\ similarity d == 100.
Proof.
  apply (verify_registered_fingerprint_found _ _ Inputs.entry_AB).
  - right. now left.
  - reflexivity.
  - reflexivity.
Defined.

End VerifyFacts.

(** * Further properties of [modules/trust_aggregator.py] *)

Section AggregateFacts.

Import TrustAggregator Spec.

(** The steps of a call of [aggregate] that returns. *)
Lemma aggregate_inv (image text safety : option Dict) (v : TrustVerdict) :
  aggregate image text safety = Ok v ->
  exists a1 a2 a3 r cat c recs,
    process_image image Acc_init = Ok a1
    /\ process_fake_news text a1 = Ok a2
    /\ process_sensitive safety a2 = Ok a3
    /\ weighted_risk (acc_risk_scores a3) = Ok r
    /\ _determine_threat_category r image text = Ok cat
    /\ overall_confidence_of image text = Ok c
    /\ _generate_recommendations r cat image text = Ok recs
    /\ v = {| overall_trust_risk := round1 r;
              threat_category := cat;
              confidence := round1 c;
              module_results := acc_module_results a3;
              explanation :=
                match acc_explanations a3 with
                | [] => "No analysis data available"%string
                | _ => String.concat " | " (acc_explanations a3)
                end;
              recommendations := recs |}.
Proof.
  unfold aggregate. fold Acc_init. intros H.
  apply bind_Ok in H. destruct H as (a1 & H1 & H).
  apply bind_Ok in H. destruct H as (a2 & H2 & H).
  apply bind_Ok in H. destruct H as (a3 & H3 & H).
  apply bind_Ok in H. destruct H as (r & Hr & H).
  apply bind_Ok in H. destruct H as (cat & Hcat & H).
  apply bind_Ok in H. destruct H as (c & Hc & H).
  apply bind_Ok in H. destruct H as (recs & Hrecs & H).
  injection H as <-.
  exists a1, a2, a3, r, cat, c, recs. repeat split; assumption.
Qed.

Lemma likelihood_gt_false_iff (text : option Dict) (c : Q) :
  0 <= c ->
  numeric text "fake_news_likelihood" ->
  dict_truthy text && Qlt_bool c (num_field text "fake_news_likelihood" 0)
  = false
  <-> ~ likelihood_above text c.
Proof.
  intros Hc Hn. pose proof (likelihood_above_iff text c Hc Hn) as H.
  destruct (dict_truthy text
            && Qlt_bool c (num_field text "fake_news_likelihood" 0)).
  - split; [discriminate|]. intros Hnot. exfalso. apply Hnot, H. reflexivity.
  - split; [|reflexivity]. intros _ Habove. apply H in Habove. discriminate.
Qed.

(** X7: [_generate_recommendations] returns between one and six
    recommendations, and the single generic one exactly when the overall
    risk is in [[30, 50)], the image is not classified as a deepfake and the
    fake-news likelihood is not above 60. *)
Theorem generate_recommendations_shape (overall_risk : Q) (cat : string)
  (image text : option Dict) :
  numeric text "fake_news_likelihood" ->
  exists recs,
    _generate_recommendations overall_risk cat image text = Ok recs
    /\ (1 <= length recs <= 6)%nat
    /\ (recs = ["ℹ️ Review analysis results for specific concerns"]%string
        <-> 30 <= overall_risk /\ overall_risk < 50
            /\ ~ classified_deepfake image
            /\ ~ likelihood_above text 60).
Proof.
  intros Hn. unfold _generate_recommendations.
  rewrite (likelihood_gt_spec text 60 Hn). cbn [mbind result_bind].
  pose proof (is_deepfake_iff image) as Hd.
  pose proof (likelihood_gt_false_iff text 60 ltac:(discriminate) Hn) as H60.
  pose proof (likelihood_above_iff text 60 ltac:(discriminate) Hn) as H60'.
  destruct (Qle_bool 70 overall_risk) eqn:E70;
    [apply Qle_bool_iff in E70 | apply Qle_bool_false in E70];
    (destruct (Qle_bool 50 overall_risk) eqn:E50;
     [apply Qle_bool_iff in E50 | apply Qle_bool_false in E50]);
    (destruct (Qlt_bool overall_risk 30) eqn:E30;
     [apply Qlt_bool_iff in E30 | apply Qlt_bool_false_iff in E30]);
    destruct (is_deepfake image);
    destruct (dict_truthy text
              && Qlt_bool 60 (num_field text "fake_news_likelihood" 0));
    cbv zeta; cbn [app];
    try (exfalso; lra);
    (eexists; split; [reflexivity|]; split; [simpl length; lia|]);
    (split;
     [ intros Heq;
       first [ discriminate Heq
             | repeat split;
               first [ assumption | lra
                     | apply H60; reflexivity
                     | intros Hc; apply Hd in Hc; discriminate Hc ] ]
     | intros (Hlo & Hhi & Hnd & Hnl);
       first [ reflexivity
             | exfalso; lra
             | exfalso; apply Hnd, Hd; reflexivity
             | exfalso; apply Hnl, H60'; reflexivity ] ]).
Qed.

Lemma generate_recommendations_shape_witness :
  exists recs,
    _generate_recommendations 40 "Medium: Moderate Risk" None
      (Some Inputs.text_12_34) = Ok recs
    /\ (1 <= length recs <= 6)%nat
    /\ (recs = ["ℹ️ Review analysis results for specific concerns"]%string
        <-> 30 <= 40 /\ 40 < 50
            /\ ~ classified_deepfake None
            /\ ~ likelihood_above (Some Inputs.text_12_34) 60).
Proof.
  apply (generate_recommendations_shape 40 "Medium: Moderate Risk" None
           (Some Inputs.text_12_34)).
  exact I.
Defined.

(** X8: [aggregate] raises on fields of the wrong type: a [ValueError] when
    a recognised image classification comes with a string as confidence, a
    [TypeError] when a present text result holds a fake-news likelihood that
    is not a number, or a present safety result a sensitive score that is
    not a number. *)
Theorem aggregate_raises_on_ill_typed_fields :
  (forall (image text safety : option Dict) (cls conf : string),
      dict_truthy image = true ->
      get image "classification" (VStr "unknown") = VStr cls ->
      cls = "deepfake"%string \/ cls = "sensitive"%string
      \/ cls = "real_safe"%string ->
      get image "confidence" (VNum 0) = VStr conf ->
      aggregate image text safety = Raise ValueError)
  /\ (forall image text safety : option Dict,
        numeric image "confidence" ->
        dict_truthy text = true ->
        ~ numeric text "fake_news_likelihood" ->
        aggregate image text safety = Raise TypeError)
  /\ (forall image text safety : option Dict,
        numeric image "confidence" ->
        numeric text "fake_news_likelihood" ->
        numeric text "credibility_score" ->
        dict_truthy safety = true ->
        ~ numeric safety "sensitive_score" ->
        aggregate image text safety = Raise TypeError).
Proof.
  split; [|split].
  - intros image text safety cls conf Ht Hcls Hk Hconf.
    unfold aggregate, process_image. rewrite Ht, Hcls, Hconf.
    destruct Hk as [-> | [-> | ->]]; reflexivity.
  - intros image text safety Hi Ht Hn. unfold aggregate.
    destruct (process_image_spec image
                {| acc_module_results := ∅; acc_risk_scores := [];
                   acc_explanations := [] |} Hi) as (a1 & -> & _).
    cbn [mbind result_bind]. unfold process_fake_news. rewrite Ht.
    unfold numeric, get in *.
    destruct (default ∅ text !! "fake_news_likelihood") as [[]|];
      try reflexivity; exfalso; apply Hn; exact I.
  - intros image text safety Hi Hl Hc Ht Hn. unfold aggregate.
    destruct (process_image_spec image
                {| acc_module_results := ∅; acc_risk_scores := [];
                   acc_explanations := [] |} Hi) as (a1 & -> & _).
    cbn [mbind result_bind].
    destruct (process_fake_news_spec text a1 Hl Hc) as (a2 & -> & _).
    cbn [mbind result_bind]. unfold process_sensitive. rewrite Ht.
    unfold numeric, get in *.
    destruct (default ∅ safety !! "sensitive_score") as [[]|];
      try reflexivity; exfalso; apply Hn; exact I.
Qed.

Lemma aggregate_raises_on_ill_typed_fields_witness :
  aggregate
    (Some {[ "classification"%string := VStr "deepfake";
             "confidence"%string := VStr "high" ]}) None None
  = Raise ValueError
  /\ aggregate None (Some {[ "fake_news_likelihood"%string := VStr "80" ]})
       None = Raise TypeError
  /\ aggregate None None (Some {[ "sensitive_score"%string := VNone ]})
     = Raise TypeError.
Proof.
  destruct aggregate_raises_on_ill_typed_fields as (H1 & H2 & H3).
  split; [|split].
  - apply (H1 _ None None "deepfake"%string "high"%string);
      solve [reflexivity | auto].
  - apply H2; [exact I | reflexivity | intros []].
  - apply H3; [exact I | exact I | exact I | reflexivity | intros []].
Defined.



Lemma process_image_results (image : option Dict) (a : Acc) :
  numeric image "confidence" ->
  exists a',
    process_image image a = Ok a'
    /\ acc_module_results a'
       = if dict_truthy image
         then <["image"%string :=
                  {[ "risk"%string := VNum (image_mapped_risk image);
                     "classification"%string :=
                       get image "classification" (VStr "unknown");
                     "confidence"%string :=
                       VNum (num_field image "confidence" 0) ]}]>
                (acc_module_results a)
         else acc_module_results a.
Proof.
  intros Hc. unfold process_image.
  destruct (dict_truthy image); [|exists a; split; reflexivity].
  rewrite (get_numeric image "confidence" 0 Hc), weights_image.
  rewrite image_mapped_risk_get.
  destruct (get image "classification" (VStr "unknown")) as [| q | s |];
    cbn [eq_str format_value_1f mbind result_bind];
    try (eexists; split; reflexivity).
  destruct (String.eqb s "deepfake");
    [|destruct (String.eqb s "sensitive");
      [|destruct (String.eqb s "real_safe")]];
    (eexists; split; reflexivity).
Qed.

Lemma process_fake_news_results (text : option Dict) (a : Acc) :
  numeric text "fake_news_likelihood" ->
  numeric text "credibility_score" ->
  exists a',
    process_fake_news text a = Ok a'
    /\ acc_module_results a'
       = if dict_truthy text
         then <["fake_news"%string :=
                  {[ "risk"%string :=
                       VNum (num_field text "fake_news_likelihood" 0);
                     "fake_news_likelihood"%string :=
                       VNum (num_field text "fake_news_likelihood" 0);
                     "credibility_score"%string :=
                       VNum (num_field text "credibility_score" 50) ]}]>
                (acc_module_results a)
         else acc_module_results a.
Proof.
  intros Hl Hc. unfold process_fake_news.
  destruct (dict_truthy text); [|exists a; split; reflexivity].
  rewrite (get_numeric text "fake_news_likelihood" 0 Hl),
    (get_numeric text "credibility_score" 50 Hc), weights_fake_news.
  cbn [as_num gt format_value_1f mbind result_bind].
  destruct (Qlt_bool 50 (num_field text "fake_news_likelihood" 0));
    [|destruct (Qlt_bool 60 (num_field text "credibility_score" 50))];
    (eexists; split; reflexivity).
Qed.

Lemma process_sensitive_results (safety : option Dict) (a : Acc) :
  numeric safety "sensitive_score" ->
  exists a',
    process_sensitive safety a = Ok a'
    /\ acc_module_results a'
       = if dict_truthy safety
         then <["sensitive"%string :=
                  {[ "risk"%string :=
                       VNum (num_field safety "sensitive_score" 0);
                     "score"%string :=
                       VNum (num_field safety "sensitive_score" 0) ]}]>
                (acc_module_results a)
         else acc_module_results a.
Proof.
  intros Hs. unfold process_sensitive.
  destruct (dict_truthy safety); [|exists a; split; reflexivity].
  rewrite (get_numeric safety "sensitive_score" 0 Hs), weights_sensitive.
  cbn [as_num mbind result_bind]. eexists; split; reflexivity.
Qed.

(** X10: the per-module breakdown [aggregate] returns holds exactly the
    channels that are present, under the keys 'image', 'fake_news' and
    'sensitive', each with the risk that enters the weighted average. *)
Theorem aggregate_breakdown (image text safety : option Dict) :
  well_typed image text safety ->
  exists v,
    aggregate image text safety = Ok v
    /\ module_results v !! "image"%string
       = (if dict_truthy image
          then Some {[ "risk"%string := VNum (image_mapped_risk image);
                       "classification"%string :=
                         get image "classification" (VStr "unknown");
                       "confidence"%string :=
                         VNum (num_field image "confidence" 0) ]}
          else None)
    /\ module_results v !! "fake_news"%string
       = (if dict_truthy text
          then Some {[ "risk"%string :=
                         VNum (num_field text "fake_news_likelihood" 0);
                       "fake_news_likelihood"%string :=
                         VNum (num_field text "fake_news_likelihood" 0);
                       "credibility_score"%string :=
                         VNum (num_field text "credibility_score" 50) ]}
          else None)
    /\ module_results v !! "sensitive"%string
       = (if dict_truthy safety
          then Some {[ "risk"%string :=
                         VNum (num_field safety "sensitive_score" 0);
                       "score"%string :=
                         VNum (num_field safety "sensitive_score" 0) ]}
          else None)
    /\ (forall k : string,
          k <> "image"%string -> k <> "fake_news"%string ->
          k <> "sensitive"%string -> module_results v !! k = None).
Proof.
  intros Hwt. pose proof Hwt as (Hconf & Hlik & Hcred & Hunc & Hsens).
  destruct (aggregate_spec image text safety Hwt) as (v & _ & _ & Hv & _).
  exists v. split; [exact Hv|].
  destruct (aggregate_inv image text safety v Hv)
    as (a1 & a2 & a3 & r & cat & c & recs & H1 & H2 & H3 & _ & _ & _ & _ & ->).
  cbn [module_results].
  destruct (process_image_results image Acc_init Hconf) as (a1' & E1 & R1).
  destruct (process_fake_news_results text a1 Hlik Hcred) as (a2' & E2 & R2).
  destruct (process_sensitive_results safety a2 Hsens) as (a3' & E3 & R3).
  rewrite H1 in E1. injection E1 as <-.
  rewrite H2 in E2. injection E2 as <-.
  rewrite H3 in E3. injection E3 as <-.
  rewrite R3, R2, R1. cbn [acc_module_results Acc_init].
  destruct (dict_truthy image), (dict_truthy text), (dict_truthy safety);
    repeat split;
    try (intros k Hk1 Hk2 Hk3);
    rewrite ?lookup_insert_eq;
    repeat (rewrite lookup_insert_ne by congruence);
    rewrite ?lookup_insert_eq, ?lookup_empty; reflexivity.
Qed.

Lemma aggregate_breakdown_witness :
  exists v,
    aggregate (Some Inputs.image_deepfake_90) None None = Ok v
    /\ is_Some (module_results v !! "image"%string)
    /\ module_results v !! "fake_news"%string = None
    /\ module_results v !! "sensitive"%string = None.
Proof.
  destruct (aggregate_breakdown (Some Inputs.image_deepfake_90) None None)
    as (v & Hv & Hi & Ht & Hs & _).
  - repeat split.
  - exists v. split; [exact Hv|]. rewrite Hi, Ht, Hs.
    split; [eexists; reflexivity|]. split; reflexivity.
Defined.

Lemma average_range (l : list Q) :
  l <> [] -> (forall x, In x l -> 0 <= x <= 100) -> 0 <= average l <= 100.
Proof.
  intros Hne H.
  assert (Hsum : 0 <= total l
                 /\ total l <= 100 * of_nat (length l)).
  { clear Hne. induction l as [|x l IH].
    - unfold total, of_nat. simpl. split; [discriminate|].
      rewrite Qmult_0_r. discriminate.
    - destruct IH as [I1 I2]; [intros y Hy; apply H; now right|].
      destruct (H x (or_introl eq_refl)) as [Hx0 Hx1].
      unfold total in *. simpl fold_right.
      change (length (x :: l)) with (1 + length l)%nat.
      rewrite of_nat_plus. change (of_nat 1) with 1. split; lra. }
  destruct Hsum as [S0 S1].
  assert (Hlen : 0 < of_nat (length l)).
  { apply of_nat_pos. destruct l; [congruence | simpl; lia]. }
  unfold average. split.
  - apply Qle_shift_div_l; [exact Hlen | lra].
  - apply Qle_shift_div_r; [exact Hlen | lra].
Qed.

(** X11: when the image confidence and the text uncertainty are
    percentages, so is the confidence [aggregate] returns. *)
Theorem aggregate_confidence_range (image text safety : option Dict) :
  well_typed image text safety ->
  0 <= num_field image "confidence" 0 <= 100 ->
  0 <= num_field text "uncertain" 50 <= 100 ->
  exists v,
    aggregate image text safety = Ok v /\ 0 <= confidence v <= 100.
Proof.
  intros Hwt Hi Ht.
  destruct (aggregate_spec image text safety Hwt)
    as (v & r & c & Hv & _ & _ & _ & Hc & Hce).
  exists v. split; [exact Hv|]. rewrite Hc.
  apply round1_range. rewrite Hce. unfold expected_confidence.
  destruct (available_confidences image text) as [|x l] eqn:E;
    [split; discriminate|].
  apply average_range; [discriminate|].
  intros y Hy. rewrite <- E in Hy. unfold available_confidences in Hy.
  rewrite in_app_iff in Hy.
  destruct (dict_truthy image), (dict_truthy text); simpl in Hy;
    repeat match goal with
      | H : _ \/ _ |- _ => destruct H
      | H : False |- _ => destruct H
      | H : _ = y |- _ => subst y
      end; lra.
Qed.

Lemma aggregate_confidence_range_witness :
  exists v,
    aggregate (Some Inputs.image_90_26) (Some Inputs.text_80_20_10) None
    = Ok v
    /\ 0 <= confidence v <= 100.
Proof.
  apply (aggregate_confidence_range (Some Inputs.image_90_26)
           (Some Inputs.text_80_20_10) None).
  - repeat split.
  - vm_compute. split; discriminate.
  - vm_compute. split; discriminate.
Defined.

Lemma round_half_even_mono (x y : Q) :
  x <= y -> (round_half_even x <= round_half_even y)%Z.
Proof.
  intros Hxy. pose proof (Qfloor_resp_le _ _ Hxy) as Hf.
  destruct (Z.eq_dec (Qfloor x) (Qfloor y)) as [E|E].
  - unfold round_half_even. rewrite E.
    destruct (Qcompare (2 * (x - inject_Z (Qfloor y))) 1) eqn:Cx;
      destruct (Qcompare (2 * (y - inject_Z (Qfloor y))) 1) eqn:Cy;
      try (destruct (Z.even (Qfloor y))); try lia;
      first [apply Qeq_alt in Cx | apply Qlt_alt in Cx | apply Qgt_alt in Cx];
      first [apply Qeq_alt in Cy | apply Qlt_alt in Cy | apply Qgt_alt in Cy];
      exfalso; lra.
  - pose proof (round_half_even_floor x). pose proof (round_half_even_floor y).
    lia.
Qed.

Lemma round1_mono (x y : Q) : x <= y -> round1 x <= round1 y.
Proof.
  intros H. unfold round1.
  assert (Hm : (round_half_even (x * 10) <= round_half_even (y * 10))%Z)
    by (apply round_half_even_mono; lra).
  rewrite Zle_Qle in Hm. unfold Qdiv. apply Qmult_le_compat_r; [exact Hm|].
  discriminate.
Qed.

Lemma expected_risk_single (rw : Q * Q) :
  0 < snd rw -> weighted_average [rw] == fst rw.
Proof.
  intros H. unfold weighted_average, total. simpl. field. lra.
Qed.



Lemma weighted_average_mono (pre post : list (Q * Q)) (r1 r2 w : Q) :
  0 < w ->
  (forall x, In x pre -> 0 < snd x) ->
  (forall x, In x post -> 0 < snd x) ->
  r1 <= r2 ->
  weighted_average (pre ++ (r1, w) :: post)
  <= weighted_average (pre ++ (r2, w) :: post).
Proof.
  intros Hw Hpre Hpost Hr. unfold weighted_average.
  rewrite !map_app. cbn [map fst snd].
  assert (Htot : forall l : list Q, (forall x, In x l -> 0 < x) ->
                                    0 <= total l).
  { induction l as [|x l IH]; intros H; unfold total in *; simpl.
    - discriminate.
    - pose proof (H x (or_introl eq_refl)).
      assert (0 <= fold_right Qplus 0 l)
        by (apply IH; intros y Hy; apply H; now right). lra. }
  assert (Happ : forall l1 l2 : list Q, total (l1 ++ l2) == total l1 + total l2).
  { induction l1 as [|x l1 IH]; intros l2; unfold total in *; simpl.
    - ring.
    - rewrite IH. ring. }
  assert (Hden : 0 < total (map snd pre ++ w :: map snd post)).
  { rewrite Happ. unfold total at 2. simpl. fold (total (map snd post)).
    assert (0 <= total (map snd pre)).
    { apply Htot. intros x Hx. apply in_map_iff in Hx.
      destruct Hx as (y & <- & Hy). apply Hpre, Hy. }
    assert (0 <= total (map snd post)).
    { apply Htot. intros x Hx. apply in_map_iff in Hx.
      destruct Hx as (y & <- & Hy). apply Hpost, Hy. }
    lra. }
  apply Qle_shift_div_l; [exact Hden|].
  unfold Qdiv. rewrite <- Qmult_assoc, (Qmult_comm (/ _)), Qmult_inv_r by lra.
  rewrite Qmult_1_r, !Happ. unfold total at 2 4. simpl.
  assert (r1 * w <= r2 * w) by (apply Qmult_le_compat_r; lra). lra.
Qed.

(** X13: the returned overall risk does not decrease when the fake-news
    likelihood of the text result does, or the sensitive score of the
    safety result, all other inputs being the same. *)
Theorem aggregate_risk_monotone :
  (forall image text1 text2 safety : option Dict,
      well_typed image text1 safety -> well_typed image text2 safety ->
      dict_truthy text1 = true -> dict_truthy text2 = true ->
      num_field text1 "fake_news_likelihood" 0
      <= num_field text2 "fake_news_likelihood" 0 ->
      returns (aggregate image text1 safety)
        (fun v1 => returns (aggregate image text2 safety)
                     (fun v2 => overall_trust_risk v1
                                <= overall_trust_risk v2)))
  /\ (forall image text safety1 safety2 : option Dict,
        well_typed image text safety1 -> well_typed image text safety2 ->
        dict_truthy safety1 = true -> dict_truthy safety2 = true ->
        num_field safety1 "sensitive_score" 0
        <= num_field safety2 "sensitive_score" 0 ->
        returns (aggregate image text safety1)
          (fun v1 => returns (aggregate image text safety2)
                       (fun v2 => overall_trust_risk v1
                                  <= overall_trust_risk v2))).
Proof.
  split.
  - intros image text1 text2 safety W1 W2 T1 T2 Hle.
    destruct (aggregate_spec image text1 safety W1)
      as (v1 & r1 & c1 & -> & O1 & R1 & _).
    destruct (aggregate_spec image text2 safety W2)
      as (v2 & r2 & c2 & -> & O2 & R2 & _).
    simpl. rewrite O1, O2. apply round1_mono. rewrite R1, R2.
    unfold expected_risk, channels. rewrite T1, T2.
    set (pre := if dict_truthy image
                then [(image_mapped_risk image, 4 # 10)] else []).
    set (post := if dict_truthy safety
                 then [(num_field safety "sensitive_score" 0, 2 # 10)]
                 else []).
    assert (Hpre : forall x, In x pre -> 0 < snd x).
    { subst pre. destruct (dict_truthy image); intros x Hx; simpl in Hx;
        intuition (subst; reflexivity). }
    assert (Hpost : forall x, In x post -> 0 < snd x).
    { subst post. destruct (dict_truthy safety); intros x Hx; simpl in Hx;
        intuition (subst; reflexivity). }
    cbn [app].
    destruct (pre ++ (num_field text1 "fake_news_likelihood" 0, 4 # 10)
                :: post) eqn:E1; [destruct pre; discriminate|].
    destruct (pre ++ (num_field text2 "fake_news_likelihood" 0, 4 # 10)
                :: post) eqn:E2; [destruct pre; discriminate|].
    rewrite <- E1, <- E2.
    apply weighted_average_mono; try assumption. reflexivity.
  - intros image text safety1 safety2 W1 W2 T1 T2 Hle.
    destruct (aggregate_spec image text safety1 W1)
      as (v1 & r1 & c1 & -> & O1 & R1 & _).
    destruct (aggregate_spec image text safety2 W2)
      as (v2 & r2 & c2 & -> & O2 & R2 & _).
    simpl. rewrite O1, O2. apply round1_mono. rewrite R1, R2.
    unfold expected_risk, channels. rewrite T1, T2.
    rewrite !app_assoc.
    set (pre := (if dict_truthy image
                 then [(image_mapped_risk image, 4 # 10)] else [])
                ++ (if dict_truthy text
                    then [(num_field text "fake_news_likelihood" 0, 4 # 10)]
                    else [])).
    assert (Hpre : forall x, In x pre -> 0 < snd x).
    { subst pre. intros x Hx. apply in_app_iff in Hx.
      destruct (dict_truthy image), (dict_truthy text); simpl in Hx;
        intuition (subst; reflexivity). }
    destruct (pre ++ [(num_field safety1 "sensitive_score" 0, 2 # 10)])
      eqn:E1; [destruct pre; discriminate|].
    destruct (pre ++ [(num_field safety2 "sensitive_score" 0, 2 # 10)])
      eqn:E2; [destruct pre; discriminate|].
    rewrite <- E1, <- E2.
    apply weighted_average_mono; try assumption; [reflexivity|].
    intros x [].
Qed.

Lemma aggregate_risk_monotone_witness :
  returns (aggregate (Some Inputs.image_deepfake_90)
             (Some Inputs.text_12_34) None)
    (fun v1 => returns (aggregate (Some Inputs.image_deepfake_90)
                          (Some Inputs.text_64_96) None)
                 (fun v2 => overall_trust_risk v1 <= overall_trust_risk v2)).
Proof.
  apply (proj1 aggregate_risk_monotone (Some Inputs.image_deepfake_90)
           (Some Inputs.text_12_34) (Some Inputs.text_64_96) None);
    try reflexivity; try (repeat split).
  vm_compute. discriminate.
Defined.

End AggregateFacts.

(** * Properties of the analysis modules and of their composition *)

Section ContentSafetyFacts.

Import TrustAggregator Spec.

Lemma max_severity_spec (l : list ContentSafetyEngine.CategoryAnalysis)
  (m0 : Q) :
  let m := fold_left
             (fun m c => max2 m (ContentSafetyEngine.severity c)) l m0 in
  m0 <= m
  /\ (forall c, In c l -> ContentSafetyEngine.severity c <= m)
  /\ (m = m0 \/ exists c, In c l /\ m = ContentSafetyEngine.severity c).
Proof.
  revert m0. induction l as [|c l IH]; intros m0; simpl.
  - split; [apply Qle_refl|]. split; [intros c []|now left].
  - destruct (IH (max2 m0 (ContentSafetyEngine.severity c)))
      as (H1 & H2 & H3).
    assert (Hm : m0 <= max2 m0 (ContentSafetyEngine.severity c)
                 /\ ContentSafetyEngine.severity c
                    <= max2 m0 (ContentSafetyEngine.severity c)
                 /\ (max2 m0 (ContentSafetyEngine.severity c) = m0
                     \/ max2 m0 (ContentSafetyEngine.severity c)
                        = ContentSafetyEngine.severity c)).
    { unfold max2.
      destruct (Qlt_bool m0 (ContentSafetyEngine.severity c)) eqn:E.
      - apply Qlt_bool_iff in E. repeat split; try lra. now right.
      - apply Qlt_bool_false_iff in E. repeat split; try lra. now left. }
    destruct Hm as (M1 & M2 & M3).
    split; [lra|]. split.
    + intros x [<-|Hx]; [lra | apply H2, Hx].
    + destruct H3 as [E | (x & Hx & E)].
      * destruct M3 as [M3|M3].
        -- left. rewrite E. exact M3.
        -- right. exists c. split; [now left | rewrite E; exact M3].
      * right. exists x. split; [now right | exact E].
Qed.

Lemma min2_cases (a b : Q) :
  (min2 a b = a /\ a <= b) \/ (min2 a b = b /\ b < a).
Proof.
  unfold min2. destruct (Qlt_bool b a) eqn:E.
  - apply Qlt_bool_iff in E. now right.
  - apply Qlt_bool_false_iff in E. now left.
Qed.

(** X14: what [ContentSafetyEngine.analyze] returns for a text that is not
    blank: [max_severity] is 0 or the largest severity of the answer, and
    [risk_score] is [max_severity / 7 * 100] capped at 100, a value in
    [[0, 100]]; for a blank text it returns [None]. *)
Theorem content_safety_analyze_scores (text : str)
  (answer : list ContentSafetyEngine.CategoryAnalysis) :
  (strip text = [] -> ContentSafetyEngine.analyze text answer = None)
  /\ (strip text <> [] ->
      exists d m r,
        ContentSafetyEngine.analyze text answer = Some d
        /\ d !! "max_severity"%string = Some (VNum m)
        /\ d !! "risk_score"%string = Some (VNum r)
        /\ 0 <= m
        /\ (forall c, In c answer -> ContentSafetyEngine.severity c <= m)
        /\ (m = 0 \/ exists c, In c answer
                               /\ m = ContentSafetyEngine.severity c)
        /\ 0 <= r <= 100
        /\ (m < 7 -> r = m / 7 * 100)
        /\ (7 <= m -> r == 100)).
Proof.
  unfold ContentSafetyEngine.analyze, str_truthy. split.
  - intros ->. reflexivity.
  - intros Hne. destruct (strip text) as [|c rest]; [contradiction|].
    cbn [negb].
    destruct (max_severity_spec answer 0) as (H0 & Hup & Hatt).
    set (m := fold_left _ answer 0) in *.
    eexists. exists m, (min2 (m / 7 * 100) 100).
    split; [reflexivity|]. split; [reflexivity|]. split; [reflexivity|].
    split; [exact H0|]. split; [exact Hup|]. split; [exact Hatt|].
    assert (E : m / 7 * 100 == m * (100 # 7)) by field.
    destruct (min2_cases (m / 7 * 100) 100) as [[-> Hle] | [-> Hlt]].
    + split; [lra|]. split; [reflexivity|]. intros H7. lra.
    + split; [split; discriminate|]. split; [|reflexivity].
      intros H7. exfalso. lra.
Qed.

Lemma content_safety_analyze_scores_witness :
  ContentSafetyEngine.analyze [0x20; 0xA0; 0x3000; 0x0A]%N [] = None
  /\ exists d m r,
       ContentSafetyEngine.analyze (of_string " hello ")
         [{| ContentSafetyEngine.category := "Hate";
             ContentSafetyEngine.severity := 4;
             ContentSafetyEngine.confidence := VNone |}] = Some d
       /\ d !! "max_severity"%string = Some (VNum m)
       /\ d !! "risk_score"%string = Some (VNum r)
       /\ 0 <= r <= 100.
Proof.
  split.
  - apply (proj1 (content_safety_analyze_scores
                    [0x20; 0xA0; 0x3000; 0x0A]%N [])).
    reflexivity.
  - destruct (proj2 (content_safety_analyze_scores (of_string " hello ")
                [{| ContentSafetyEngine.category := "Hate";
                    ContentSafetyEngine.severity := 4;
                    ContentSafetyEngine.confidence := VNone |}]))
      as (d & m & r & Hd & Hm & Hr & _ & _ & _ & Hrange & _).
    + discriminate.
    + exists d, m, r. auto.
Defined.

Lemma content_safety_result_shape (text : str)
  (answer : list ContentSafetyEngine.CategoryAnalysis) (d : Dict) :
  ContentSafetyEngine.analyze text answer = Some d ->
  dict_truthy (Some d) = true
  /\ d !! "sensitive_score"%string = None.
Proof.
  unfold ContentSafetyEngine.analyze.
  destruct (negb (str_truthy (strip text))); [discriminate|].
  intros [= <-]. split; [|reflexivity].
  apply (lookup_truthy _ "source"%string (VStr "Azure Content Safety")).
  reflexivity.
Qed.

(** X15: the aggregator reads the key 'sensitive_score' and the content
    safety result stores its score under 'risk_score': passed as the safety
    channel, the result always counts with risk 0, so the overall risk and
    the threat category are the same whatever severities the service
    answered. *)
Theorem content_safety_severity_ignored (image text_result : option Dict)
  (text : str) (answer1 answer2 : list ContentSafetyEngine.CategoryAnalysis)
  (d1 d2 : Dict) :
  well_typed image text_result None ->
  ContentSafetyEngine.analyze text answer1 = Some d1 ->
  ContentSafetyEngine.analyze text answer2 = Some d2 ->
  exists v1 v2,
    aggregate image text_result (Some d1) = Ok v1
    /\ aggregate image text_result (Some d2) = Ok v2
    /\ module_results v1 !! "sensitive"%string
       = Some {[ "risk"%string := VNum 0; "score"%string := VNum 0 ]}
    /\ overall_trust_risk v1 == overall_trust_risk v2
    /\ threat_category v1 = threat_category v2.
Proof.
  intros (Hconf & Hlik & Hcred & Hunc & _) A1 A2.
  destruct (content_safety_result_shape text answer1 d1 A1) as [T1 L1].
  destruct (content_safety_result_shape text answer2 d2 A2) as [T2 L2].
  assert (N1 : num_field (Some d1) "sensitive_score" 0 = 0)
    by (unfold num_field; simpl default; rewrite L1; reflexivity).
  assert (N2 : num_field (Some d2) "sensitive_score" 0 = 0)
    by (unfold num_field; simpl default; rewrite L2; reflexivity).
  assert (W1 : well_typed image text_result (Some d1)).
  { repeat split; try assumption. unfold numeric. simpl default.
    rewrite L1. exact I. }
  assert (W2 : well_typed image text_result (Some d2)).
  { repeat split; try assumption. unfold numeric. simpl default.
    rewrite L2. exact I. }
  destruct (aggregate_spec image text_result (Some d1) W1)
    as (v1 & r1 & c1 & Hv1 & O1 & R1 & C1 & _).
  destruct (aggregate_spec image text_result (Some d2) W2)
    as (v2 & r2 & c2 & Hv2 & O2 & R2 & C2 & _).
  exists v1, v2. split; [exact Hv1|]. split; [exact Hv2|].
  assert (Hexp : expected_risk image text_result (Some d1)
                 = expected_risk image text_result (Some d2)).
  { unfold expected_risk, channels. rewrite T1, T2, N1, N2. reflexivity. }
  split; [|split].
  - destruct (aggregate_inv image text_result (Some d1) v1 Hv1)
      as (a1 & a2 & a3 & r & cat & c & recs
          & _ & _ & H3 & _ & _ & _ & _ & Ev).
    destruct (process_sensitive_results (Some d1) a2)
      as (a3' & E3 & R3); [apply W1|].
    rewrite H3 in E3. injection E3 as <-.
    rewrite Ev. cbn [module_results]. rewrite R3, T1, N1.
    apply lookup_insert_eq.
  - rewrite O1, O2. apply round1_proper. rewrite R1, R2, Hexp. reflexivity.
  - rewrite (determine_threat_category_proper r1 _ image text_result R1) in C1.
    rewrite (determine_threat_category_proper r2 _ image text_result R2) in C2.
    rewrite Hexp in C1. congruence.
Qed.

Lemma content_safety_severity_ignored_witness :
  exists d1 d2 v1 v2,
    ContentSafetyEngine.analyze (of_string "x") [] = Some d1
    /\ ContentSafetyEngine.analyze (of_string "x")
         [{| ContentSafetyEngine.category := "Violence";
             ContentSafetyEngine.severity := 6;
             ContentSafetyEngine.confidence := VNone |}] = Some d2
    /\ aggregate None (Some Inputs.text_12_34) (Some d1) = Ok v1
    /\ aggregate None (Some Inputs.text_12_34) (Some d2) = Ok v2
    /\ overall_trust_risk v1 == overall_trust_risk v2
    /\ threat_category v1 = threat_category v2.
Proof.
  destruct (content_safety_severity_ignored None (Some Inputs.text_12_34)
              (of_string "x") []
              [{| ContentSafetyEngine.category := "Violence";
                  ContentSafetyEngine.severity := 6;
                  ContentSafetyEngine.confidence := VNone |}]
              _ _ ltac:(repeat split) eq_refl eq_refl)
    as (v1 & v2 & H1 & H2 & _ & Ho & Hc).
  do 2 eexists. exists v1, v2.
  split; [reflexivity|]. split; [reflexivity|]. auto.
Defined.

End ContentSafetyFacts.

Section ImageAnalysisFacts.

Import TrustAggregator Spec.

(** X16: [_classify_results] gives an API error precedence over the
    scores; without error and with non-negative scores it classifies by the
    deepfake score first (above 50), then by the sensitive score (above 40),
    and its confidence is above 40 and at most 98, at least 48 for
    'real_safe'; a sensitive score that is not a number raises a [TypeError]
    unless the deepfake score already decided. *)
Theorem classify_results_cases (results : AIAnalysisEngine.Results) :
  (truthy (AIAnalysisEngine.foundry_error results) = true ->
   returns (AIAnalysisEngine._classify_results results)
     (fun r => fst r = ("unknown"%string, 0)))
  /\ (truthy (AIAnalysisEngine.foundry_error results) = false ->
      forall s : Q,
        AIAnalysisEngine.sensitive_score results = VNum s ->
        0 <= AIAnalysisEngine.deepfake_score results -> 0 <= s ->
        returns (AIAnalysisEngine._classify_results results)
          (fun r =>
             40 < snd (fst r) <= 98
             /\ (fst (fst r) = "deepfake"%string
                 /\ 50 < AIAnalysisEngine.deepfake_score results
                 \/ fst (fst r) = "sensitive"%string
                    /\ AIAnalysisEngine.deepfake_score results <= 50
                    /\ 40 < s
                 \/ fst (fst r) = "real_safe"%string
                    /\ AIAnalysisEngine.deepfake_score results <= 50
                    /\ s <= 40 /\ 48 <= snd (fst r))))
  /\ (truthy (AIAnalysisEngine.foundry_error results) = false ->
      AIAnalysisEngine.deepfake_score results <= 50 ->
      (forall s : Q, AIAnalysisEngine.sensitive_score results <> VNum s) ->
      AIAnalysisEngine._classify_results results = Raise TypeError).
Proof.
  unfold AIAnalysisEngine._classify_results. split; [|split].
  - intros ->. reflexivity.
  - intros -> s -> Hd Hs.
    destruct (Qlt_bool 50 (AIAnalysisEngine.deepfake_score results)) eqn:E50.
    + apply Qlt_bool_iff in E50. cbn [returns fst snd].
      destruct (min2_cases (AIAnalysisEngine.deepfake_score results) 98)
        as [[-> H] | [-> H]]; (split; [split; [lra | lra || discriminate]|]);
        left; auto.
    + apply Qlt_bool_false_iff in E50. cbn [as_num mbind result_bind].
      destruct (Qlt_bool 40 s) eqn:E40.
      * apply Qlt_bool_iff in E40. cbn [returns fst snd].
        destruct (min2_cases s 98) as [[-> H] | [-> H]];
          (split; [split; [lra | lra || discriminate]|]);
          right; left; auto.
      * apply Qlt_bool_false_iff in E40. cbn [returns fst snd].
        assert (Hm : max2 (AIAnalysisEngine.deepfake_score results) s <= 50
                     /\ 0 <= max2 (AIAnalysisEngine.deepfake_score results) s).
        { unfold max2.
          destruct (Qlt_bool (AIAnalysisEngine.deepfake_score results) s);
            split; lra. }
        destruct Hm. split; [split; lra|]. right; right.
        repeat split; try assumption; lra.
  - intros -> Hd Hn.
    rewrite (proj2 (Qlt_bool_false_iff _ _) Hd).
    destruct (AIAnalysisEngine.sensitive_score results) as [| q | |];
      try reflexivity. exfalso. apply (Hn q). reflexivity.
Qed.

Lemma classify_results_cases_witness :
  returns (AIAnalysisEngine._classify_results
             {| AIAnalysisEngine.deepfake_score := 10;
                AIAnalysisEngine.sensitive_score := VNum 70;
                AIAnalysisEngine.foundry_error := None |})
    (fun r => 40 < snd (fst r) <= 98)
  /\ returns (AIAnalysisEngine._classify_results
                {| AIAnalysisEngine.deepfake_score := 90;
                   AIAnalysisEngine.sensitive_score := VNum 70;
                   AIAnalysisEngine.foundry_error :=
                     Some " Sensitive API error: timeout"%string |})
       (fun r => fst r = ("unknown"%string, 0))
  /\ AIAnalysisEngine._classify_results
       {| AIAnalysisEngine.deepfake_score := 10;
          AIAnalysisEngine.sensitive_score := VStr "high";
          AIAnalysisEngine.foundry_error := None |} = Raise TypeError.
Proof.
  split; [|split].
  - destruct (proj1 (proj2 (classify_results_cases
                {| AIAnalysisEngine.deepfake_score := 10;
                   AIAnalysisEngine.sensitive_score := VNum 70;
                   AIAnalysisEngine.foundry_error := None |}))
                eq_refl 70 eq_refl) as [H _];
      [discriminate | discriminate | exact H].
  - apply (proj1 (classify_results_cases _)). reflexivity.
  - apply (proj2 (proj2 (classify_results_cases _)));
      [reflexivity | discriminate | discriminate].
Defined.

(** X17: an image that the analysis classifies as 'sensitive', analysed
    without text, is passed by the application both as the image result and
    as the safety result; the safety channel then counts with risk 0, and
    the verdict is an overall risk of 26.7 with the category
    "Low: Generally Trustworthy", where the image result alone gives 40 and
    "Medium: Moderate Risk". *)
Theorem app_sensitive_image_alone (results : AIAnalysisEngine.Results)
  (s : Q) :
  truthy (AIAnalysisEngine.foundry_error results) = false ->
  AIAnalysisEngine.deepfake_score results <= 50 ->
  AIAnalysisEngine.sensitive_score results = VNum s ->
  40 < s ->
  exists d v v',
    AIAnalysisEngine.analyze_result results = Ok d
    /\ App.trust_aggregation (Some d) None None = Ok (Some v)
    /\ overall_trust_risk v == 267 # 10
    /\ threat_category v = "Low: Generally Trustworthy"%string
    /\ aggregate (Some d) None None = Ok v'
    /\ overall_trust_risk v' == 40
    /\ threat_category v' = "Medium: Moderate Risk"%string.
Proof.
  intros He Hd Hs H40.
  unfold AIAnalysisEngine.analyze_result, AIAnalysisEngine._classify_results.
  rewrite He, (proj2 (Qlt_bool_false_iff _ _) Hd), Hs.
  cbn [as_num mbind result_bind].
  rewrite (proj2 (Qlt_bool_iff _ _) H40).
  cbn [mbind result_bind].
  set (d := ({[ "classification"%string := VStr "sensitive";
                "confidence"%string := VNum (min2 s 98);
                "details"%string := VOther;
                "recommendations"%string := VOther ]} : Dict)).
  assert (Wd : well_typed (Some d) None (Some d)) by (repeat split).
  assert (Wi : well_typed (Some d) None None) by (repeat split).
  destruct (aggregate_spec (Some d) None (Some d) Wd)
    as (v & r & c & Hv & Ho & Hr & Hcat & _).
  destruct (aggregate_spec (Some d) None None Wi)
    as (v' & r' & c' & Hv' & Ho' & Hr' & Hcat' & _).
  assert (Er : expected_risk (Some d) None (Some d) == 80 # 3)
    by reflexivity.
  assert (Er' : expected_risk (Some d) None None == 40) by reflexivity.
  exists d, v, v'. split; [reflexivity|].
  split.
  { unfold App.trust_aggregation.
    change (dict_truthy (Some d)) with true.
    change (dict_truthy None) with false. cbn [orb andb].
    change (eq_str (get (Some d) "classification" VNone) "sensitive")
      with true. cbv iota.
    rewrite Hv. reflexivity. }
  split; [rewrite Ho, Hr, Er; reflexivity|].
  split.
  { rewrite (determine_threat_category_proper r (80 # 3) (Some d) None)
      in Hcat by (rewrite Hr; exact Er).
    assert (Hc : _determine_threat_category (80 # 3) (Some d) None
                 = Ok "Low: Generally Trustworthy"%string)
      by (vm_compute; reflexivity).
    congruence. }
  split; [exact Hv'|].
  split; [rewrite Ho', Hr', Er'; reflexivity|].
  rewrite (determine_threat_category_proper r' 40 (Some d) None)
    in Hcat' by (rewrite Hr'; exact Er').
  assert (Hc40 : _determine_threat_category 40 (Some d) None
                 = Ok "Medium: Moderate Risk"%string)
    by (vm_compute; reflexivity).
  congruence.
Qed.

Lemma app_sensitive_image_alone_witness :
  exists d v v',
    AIAnalysisEngine.analyze_result
      {| AIAnalysisEngine.deepfake_score := 10;
         AIAnalysisEngine.sensitive_score := VNum 70;
         AIAnalysisEngine.foundry_error := None |} = Ok d
    /\ App.trust_aggregation (Some d) None None = Ok (Some v)
    /\ overall_trust_risk v == 267 # 10
    /\ threat_category v = "Low: Generally Trustworthy"%string
    /\ aggregate (Some d) None None = Ok v'
    /\ overall_trust_risk v' == 40
    /\ threat_category v' = "Medium: Moderate Risk"%string.
Proof.
  apply (app_sensitive_image_alone _ 70);
    [reflexivity | discriminate | reflexivity | reflexivity].
Defined.

End ImageAnalysisFacts.

Section FakeNewsFacts.

Import TrustAggregator Spec Shape.

Lemma Qfloor_unique (q : Q) (z : Z) :
  inject_Z z <= q -> q < inject_Z (z + 1) -> Qfloor q = z.
Proof.
  intros H1 H2. pose proof (Qfloor_le q) as F1. pose proof (Qlt_floor q) as F2.
  assert (A : inject_Z z < inject_Z (Qfloor q + 1)) by lra.
  assert (B : inject_Z (Qfloor q) < inject_Z (z + 1)) by lra.
  rewrite <- Zlt_Qlt in A, B. lia.
Qed.

Lemma round_half_even_Z (k : Z) : round_half_even (inject_Z k) = k.
Proof.
  unfold round_half_even. rewrite Qfloor_Z.
  assert (H : 2 * (inject_Z k - inject_Z k) < 1) by lra.
  rewrite (proj1 (Qlt_alt _ _) H). reflexivity.
Qed.

Lemma round1_idempotent (q : Q) : round1 (round1 q) == round1 q.
Proof.
  unfold round1 at 1.
  assert (E : round1 q * 10 == inject_Z (round_half_even (q * 10)))
    by (unfold round1; field).
  rewrite E, round_half_even_Z. reflexivity.
Qed.

(** Rounding to the nearest integer, ties to even, commutes with the
    reflection [x |-> n - x] for an even [n]. *)
Lemma round_half_even_reflect (x : Q) (n : Z) :
  Z.even n = true ->
  round_half_even (inject_Z n - x) = (n - round_half_even x)%Z.
Proof.
  intros Hn. pose proof (Qfloor_le x) as F1. pose proof (Qlt_floor x) as F2.
  set (f := Qfloor x) in *.
  rewrite inject_Z_plus in F2. change (inject_Z 1) with 1 in F2.
  destruct (Qeq_dec x (inject_Z f)) as [E|NE].
  - assert (Hfl : Qfloor (inject_Z n - x) = (n - f)%Z).
    { apply Qfloor_unique; unfold Z.sub;
        rewrite ?inject_Z_plus, ?inject_Z_opp;
        change (inject_Z 1) with 1; lra. }
    unfold round_half_even. rewrite Hfl. fold f.
    assert (H1 : 2 * (inject_Z n - x - inject_Z (n - f)) < 1).
    { unfold Z.sub. rewrite inject_Z_plus, inject_Z_opp. lra. }
    assert (H2 : 2 * (x - inject_Z f) < 1) by lra.
    rewrite (proj1 (Qlt_alt _ _) H1), (proj1 (Qlt_alt _ _) H2). reflexivity.
  - assert (Hgt : inject_Z f < x).
    { apply Qnot_le_lt. intros Hle. apply NE. apply Qle_antisym; assumption. }
    assert (Hfl : Qfloor (inject_Z n - x) = (n - f - 1)%Z).
    { apply Qfloor_unique; unfold Z.sub;
        rewrite ?inject_Z_plus, ?inject_Z_opp;
        change (inject_Z 1) with 1; change (inject_Z (-1)) with (-1);
        change (- (1)) with (-1); lra. }
    unfold round_half_even. rewrite Hfl. fold f.
    assert (Hy : 2 * (inject_Z n - x - inject_Z (n - f - 1))
                 == 2 - 2 * (x - inject_Z f)).
    { unfold Z.sub. rewrite !inject_Z_plus, !inject_Z_opp.
      change (inject_Z 1) with 1. ring. }
    rewrite (Qcompare_comp _ _ Hy 1 1 (Qeq_refl 1)).
    destruct (Qcompare (2 * (x - inject_Z f)) 1) eqn:C.
    + apply Qeq_alt in C.
      assert (H : 2 - 2 * (x - inject_Z f) == 1) by lra.
      rewrite (proj1 (Qeq_alt _ _) H).
      replace (n - f - 1)%Z with (n - (f + 1))%Z by lia.
      rewrite Z.even_sub, Hn, Z.even_add. simpl Z.even.
      destruct (Z.even f); simpl; lia.
    + apply Qlt_alt in C.
      assert (H : 2 - 2 * (x - inject_Z f) > 1) by lra.
      rewrite (proj1 (Qgt_alt _ _) H). lia.
    + apply Qgt_alt in C.
      assert (H : 2 - 2 * (x - inject_Z f) < 1) by lra.
      rewrite (proj1 (Qlt_alt _ _) H). lia.
Qed.

Lemma round1_reflect (x : Q) : round1 (100 - x) == 100 - round1 x.
Proof.
  unfold round1.
  assert (E : (100 - x) * 10 == inject_Z 1000 - x * 10).
  { change (inject_Z 1000) with 1000. ring. }
  rewrite E, round_half_even_reflect by reflexivity.
  unfold Z.sub. rewrite inject_Z_plus, inject_Z_opp.
  change (inject_Z 1000) with 1000. field.
Qed.

Lemma round1_between (lo hi q : Q) :
  round1 lo == lo -> round1 hi == hi ->
  lo <= q <= hi -> lo <= round1 q <= hi.
Proof.
  intros Hlo Hhi [H1 H2]. split.
  - rewrite <- Hlo. apply round1_mono, H1.
  - rewrite <- Hhi. apply round1_mono, H2.
Qed.

Lemma max2_cases (a b : Q) :
  (max2 a b = a /\ b <= a) \/ (max2 a b = b /\ a < b).
Proof.
  unfold max2. destruct (Qlt_bool a b) eqn:E.
  - apply Qlt_bool_iff in E. now right.
  - apply Qlt_bool_false_iff in E. now left.
Qed.

Lemma abs_cases (q : Q) : (abs q = - q /\ q < 0) \/ (abs q = q /\ 0 <= q).
Proof.
  unfold abs. destruct (Qlt_bool q 0) eqn:E.
  - apply Qlt_bool_iff in E. now left.
  - apply Qlt_bool_false_iff in E. now right.
Qed.

(** The three scores of [analyze]. *)
Lemma fake_news_analyze_fields (text : str) (prob : option Q) :
  exists l c u,
    FakeNewsDetectionEngine.analyze text prob = fake_news_dict l c u
    /\ fake_news_ranges l c u
    /\ (strip text = [] -> l = 0 /\ c = 50 /\ u = 50)
    /\ (strip text <> [] -> Qabs (l + c - 100) <= (1 # 10) + fp_slack)
    /\ round1 l == l /\ round1 c == c /\ round1 u == u.
Proof.
  unfold FakeNewsDetectionEngine.analyze.
  assert (Hblank : negb (str_truthy text)
                   || (length (strip text) =? 0)%nat = true
                   <-> strip text = []).
  { split.
    - intros H. apply orb_true_iff in H. destruct H as [H|H].
      + destruct text; [reflexivity | discriminate].
      + apply Nat.eqb_eq in H. destruct (strip text); [reflexivity|].
        discriminate.
    - intros H. rewrite H. apply orb_true_r. }
  destruct (negb (str_truthy text) || (length (strip text) =? 0)%nat).
  - exists 0, 50, 50. split; [reflexivity|].
    unfold fake_news_ranges.
    split; [repeat split; discriminate|].
    split; [auto|]. split; [|repeat split; reflexivity].
    intros Hne. exfalso. apply Hne, Hblank. reflexivity.
  - assert (Hnb : strip text <> []).
    { intros H. apply Hblank in H. discriminate. }
    set (score := match prob with Some p => p * 100 | None => 50 end).
    set (l := max2 0 (min2 (985 # 10) score)).
    assert (Hl : 0 <= l <= 985 # 10).
    { subst l. destruct (max2_cases 0 (min2 (985 # 10) score))
        as [[-> H] | [-> H]].
      - split; discriminate.
      - destruct (min2_cases (985 # 10) score) as [[E H'] | [E H']];
          rewrite E in *; split; lra. }
    set (u := max2 (15 # 10) (min2 100 (100 - abs (l - 50) * 2))).
    assert (Hu : 15 # 10 <= u <= 100).
    { subst u.
      destruct (max2_cases (15 # 10) (min2 100 (100 - abs (l - 50) * 2)))
        as [[-> H] | [-> H]].
      - split; [apply Qle_refl | discriminate].
      - destruct (min2_cases 100 (100 - abs (l - 50) * 2))
          as [[E H'] | [E H']]; rewrite E in *; split; lra. }
    exists (round1 l), (round1 (100 - l)), (round1 u).
    split; [reflexivity|]. split.
    { unfold fake_news_ranges. repeat split;
        try (apply (round1_between 0 (985 # 10));
             [reflexivity | reflexivity | exact Hl]);
        try (apply (round1_between (15 # 10) 100);
             [reflexivity | reflexivity | exact Hu]);
        apply (round1_between (15 # 10) 100);
        try reflexivity; lra. }
    split; [intros H; contradiction|].
    split; [|repeat split; apply round1_idempotent].
    intros _. apply Qabs_Qle_condition.
    assert (E : round1 l + round1 (100 - l) == 100)
      by (rewrite round1_reflect; ring).
    unfold fp_slack. split; lra.
Qed.



Lemma fake_news_dict_fields (l c u : Q) :
  dict_truthy (Some (fake_news_dict l c u)) = true
  /\ num_field (Some (fake_news_dict l c u)) "fake_news_likelihood" 0 = l
  /\ num_field (Some (fake_news_dict l c u)) "uncertain" 50 = u
  /\ numeric (Some (fake_news_dict l c u)) "fake_news_likelihood"
  /\ numeric (Some (fake_news_dict l c u)) "credibility_score"
  /\ numeric (Some (fake_news_dict l c u)) "uncertain".
Proof. vm_compute. repeat split. Qed.

(** X19: every result of [FakeNewsDetectionEngine.analyze] is accepted by
    the aggregator as text result, next to any image and safety result with
    numeric fields; alone, it gives as overall risk its fake-news likelihood
    and as confidence 100 minus its uncertainty. *)
Theorem fake_news_result_aggregates (text : str) (prob : option Q) :
  (forall image safety : option Dict,
      numeric image "confidence" -> numeric safety "sensitive_score" ->
      exists v,
        aggregate image (Some (FakeNewsDetectionEngine.analyze text prob))
          safety = Ok v)
  /\ exists v l u,
       FakeNewsDetectionEngine.analyze text prob
         !! "fake_news_likelihood"%string = Some (VNum l)
       /\ FakeNewsDetectionEngine.analyze text prob !! "uncertain"%string
          = Some (VNum u)
       /\ aggregate None (Some (FakeNewsDetectionEngine.analyze text prob))
            None = Ok v
       /\ overall_trust_risk v == l
       /\ confidence v == 100 - u.
Proof.
  destruct (fake_news_analyze_fields text prob)
    as (l & c & u & -> & _ & _ & _ & Rl & _ & Ru).
  destruct (fake_news_dict_fields l c u) as (Ht & Nl & Nu & Hl & Hc & Hu).
  split.
  - intros image safety Hi Hs.
    destruct (aggregate_spec image (Some (fake_news_dict l c u)) safety)
      as (v & _ & _ & Hv & _).
    { repeat split; assumption. }
    exists v. exact Hv.
  - destruct (aggregate_spec None (Some (fake_news_dict l c u)) None)
      as (v & r & k & Hv & Ho & Hr & _ & Hk & Hke).
    { repeat split; assumption. }
    exists v, l, u.
    split; [reflexivity|]. split; [reflexivity|]. split; [exact Hv|].
    split.
    + rewrite Ho, Hr. unfold expected_risk, channels. rewrite Ht, Nl.
      cbn [dict_truthy app]. rewrite expected_risk_single by reflexivity.
      exact Rl.
    + rewrite Hk, Hke.
      unfold expected_confidence, available_confidences. rewrite Ht, Nu.
      cbn [dict_truthy app].
      assert (E : average [100 - u] == 100 - u).
      { unfold average, total. cbn [fold_right length].
        change (of_nat 1) with 1. field. }
      rewrite E, round1_reflect, Ru. reflexivity.
Qed.

Lemma fake_news_result_aggregates_witness :
  exists v,
    aggregate (Some Inputs.image_deepfake_90)
      (Some (FakeNewsDetectionEngine.analyze (of_string "Shocking!!") None))
      None = Ok v.
Proof.
  apply (proj1 (fake_news_result_aggregates (of_string "Shocking!!") None));
    exact I.
Defined.






End FakeNewsFacts.

(** * Properties of [modules/blockchain_layer.py] *)

Section BlockchainFacts.

Import BlockchainTraceability Shape.

Variable sha256_hexdigest : string -> string.
Variable dumps_transaction : TransactionData -> string.
Variable dumps_header : BlockHeader -> string.

(** One call of [register_fingerprint]. *)
Local Abbreviation register st c :=
  (register_fingerprint sha256_hexdigest dumps_transaction dumps_header st
     (call_now c) (call_fingerprint c) (call_protection_flag c)
     (call_consent_status c)).

Local Abbreviation run_from st calls :=
  (run sha256_hexdigest dumps_transaction dumps_header st calls).

Lemma register_chain (st : State) (c : Call) :
  mock_chain (snd (register st c))
  = mock_chain st
    ++ [{| block_number := r_block_number (fst (register st c));
           block_hash := r_block_hash (fst (register st c));
           previous_hash := last_block_hash st;
           transaction_id := r_transaction_id (fst (register st c));
           transaction_data :=
             {| td_fingerprint_id :=
                  VerificationEngine.get (call_fingerprint c) "fingerprint_id";
                td_sha256_hash :=
                  VerificationEngine.get (call_fingerprint c) "sha256";
                td_perceptual_hash :=
                  VerificationEngine.get (call_fingerprint c)
                    "perceptual_hash";
                td_protection_flag := call_protection_flag c;
                td_consent_status := call_consent_status c;
                td_timestamp := call_now c;
                td_metadata_hash :=
                  VerificationEngine.get (call_fingerprint c)
                    "metadata_hash" |};
           timestamp := r_timestamp (fst (register st c)) |}]
  /\ r_block_number (fst (register st c)) = length (mock_chain st)
  /\ last_block_hash (snd (register st c))
     = r_block_hash (fst (register st c))
  /\ use_testnet (snd (register st c)) = use_testnet st.
Proof. repeat split. Qed.

Lemma run_cons (st : State) (c : Call) (calls : list Call) :
  run_from st (c :: calls) = run_from (snd (register st c)) calls.
Proof. reflexivity. Qed.

Lemma run_snoc (st : State) (c : Call) (calls : list Call) :
  run_from st (calls ++ [c]) = snd (register (run_from st calls) c).
Proof. unfold run. rewrite fold_left_app. reflexivity. Qed.

Lemma last_hash_snoc (prev : string) (chain : list Block) (b : Block) :
  last_hash prev (chain ++ [b]) = block_hash b.
Proof.
  unfold last_hash. rewrite map_app. simpl. apply last_last.
Qed.

Lemma last_default_irrelevant {A : Type} (x : A) (l : list A) (d d' : A) :
  List.last (x :: l) d = List.last (x :: l) d'.
Proof.
  revert x. induction l as [|y l IH]; intros x; [reflexivity|].
  change (List.last (y :: l) d = List.last (y :: l) d'). apply IH.
Qed.

Lemma last_hash_cons (prev : string) (x : Block) (chain : list Block) :
  last_hash prev (x :: chain) = last_hash (block_hash x) chain.
Proof.
  unfold last_hash. destruct chain as [|y chain]; [reflexivity|].
  cbn [map].
  change (List.last (block_hash x :: block_hash y :: map block_hash chain)
            prev)
    with (List.last (block_hash y :: map block_hash chain) prev).
  apply last_default_irrelevant.
Qed.

Lemma linked_from_snoc (prev : string) (n : nat) (chain : list Block)
  (b : Block) :
  linked_from prev n chain ->
  block_number b = (n + length chain)%nat ->
  previous_hash b = last_hash prev chain ->
  linked_from prev n (chain ++ [b]).
Proof.
  revert prev n. induction chain as [|x chain IH]; intros prev n Hl Hn Hp.
  - simpl in *. rewrite Nat.add_0_r in Hn. auto.
  - destruct Hl as (H1 & H2 & H3). simpl. split; [exact H1|].
    split; [exact H2|]. apply IH; [exact H3 | simpl in Hn; lia |].
    rewrite Hp. apply last_hash_cons.
Qed.

Lemma linked_from_lookup (prev : string) (n : nat) (chain : list Block) :
  linked_from prev n chain ->
  forall (i : nat) (b : Block),
    nth_error chain i = Some b ->
    block_number b = (n + i)%nat
    /\ previous_hash b
       = match i with
         | O => prev
         | S j => match nth_error chain j with
                  | Some b' => block_hash b'
                  | None => prev
                  end
         end.
Proof.
  revert prev n. induction chain as [|x chain IH]; intros prev n Hl i b Hi.
  - destruct i; discriminate.
  - destruct Hl as (H1 & H2 & H3). destruct i as [|i].
    + injection Hi as <-. rewrite Nat.add_0_r. auto.
    + simpl in Hi. destruct (IH _ _ H3 i b Hi) as [N P].
      split; [lia|]. rewrite P. destruct i as [|j]; [reflexivity|].
      cbn [nth_error].
      destruct (nth_error chain j) eqn:E; [reflexivity|].
      apply nth_error_None in E.
      assert (S j < length chain)%nat
        by (apply nth_error_Some; congruence).
      lia.
Qed.

(** The chain after a sequence of registrations on a new object. *)
Lemma run_invariant (use : bool) (calls : list Call) :
  let st := run_from (init use) calls in
  length (mock_chain st) = length calls
  /\ linked_from genesis_hash 0 (mock_chain st)
  /\ last_block_hash st = last_hash genesis_hash (mock_chain st)
  /\ use_testnet st = use.
Proof.
  induction calls as [|c calls IH] using rev_ind.
  - repeat split.
  - cbv zeta in IH |- *. rewrite run_snoc.
    destruct IH as (Hlen & Hlink & Hlast & Huse).
    destruct (register_chain (run_from (init use) calls) c)
      as (Hc & Hn & Hh & Hu).
    rewrite Hc, Hh, Hu, last_hash_snoc. cbn [block_hash].
    split; [rewrite !length_app; simpl; lia|].
    split; [|auto].
    apply linked_from_snoc; [exact Hlink | simpl; exact Hn | exact Hlast].
Qed.

(** X21: after any sequence of registrations on a new object the chain
    holds one block per registration, block [i] has number [i], the first
    block holds the genesis hash of 64 zeros as previous hash and every
    other block the hash of the block before it, and [last_block_hash] is
    the hash of the last block. *)
Theorem blockchain_chain_linked (use : bool) (calls : list Call) :
  let st := run_from (init use) calls in
  length (mock_chain st) = length calls
  /\ last_block_hash st = last_hash genesis_hash (mock_chain st)
  /\ forall (i : nat) (b : Block),
       nth_error (mock_chain st) i = Some b ->
       block_number b = i
       /\ previous_hash b
          = match i with
            | O => genesis_hash
            | S j => match nth_error (mock_chain st) j with
                     | Some b' => block_hash b'
                     | None => genesis_hash
                     end
            end.
Proof.
  destruct (run_invariant use calls) as (Hlen & Hlink & Hlast & _).
  split; [exact Hlen|]. split; [exact Hlast|].
  intros i b Hi.
  apply (linked_from_lookup genesis_hash 0 _ Hlink i b Hi).
Qed.

Lemma find_transaction_app (chain rest : list Block) (tx : string) :
  find_transaction (chain ++ rest) tx
  = match find_transaction chain tx with
    | Verified n ts h => Verified n ts h
    | NotVerified => find_transaction rest tx
    end.
Proof.
  induction chain as [|b chain IH]; [reflexivity|].
  simpl. destruct (String.eqb (transaction_id b) tx); [reflexivity|].
  exact IH.
Qed.

Lemma find_transaction_found (chain : list Block) (tx : string)
  (n : nat) (ts h : string) :
  find_transaction chain tx = Verified n ts h ->
  exists i b,
    nth_error chain i = Some b /\ transaction_id b = tx
    /\ n = block_number b /\ ts = timestamp b /\ h = block_hash b
    /\ forall j b', (j < i)%nat -> nth_error chain j = Some b' ->
                    transaction_id b' <> tx.
Proof.
  induction chain as [|x chain IH]; [discriminate|].
  simpl. destruct (String.eqb (transaction_id x) tx) eqn:E.
  - intros [= <- <- <-]. apply String.eqb_eq in E.
    exists 0%nat, x. repeat split; try assumption. intros j b' Hj. lia.
  - intros H. destruct (IH H) as (i & b & Hi & Hb & Hn & Hts & Hh & Hfirst).
    exists (S i), b. repeat split; try assumption.
    intros [|j] b' Hj Hb'.
    + injection Hb' as <-. apply String.eqb_neq, E.
    + apply (Hfirst j b'); [lia | exact Hb'].
Qed.

Lemma find_transaction_none (chain : list Block) (tx : string) :
  find_transaction chain tx = NotVerified
  <-> forall b, In b chain -> transaction_id b <> tx.
Proof.
  induction chain as [|x chain IH].
  - split; [intros _ b [] | reflexivity].
  - simpl. destruct (String.eqb (transaction_id x) tx) eqn:E.
    + split; [discriminate|]. intros H. exfalso.
      apply (H x (or_introl eq_refl)). apply String.eqb_eq, E.
    + rewrite IH. split.
      * intros H b [<-|Hb]; [apply String.eqb_neq, E | apply H, Hb].
      * intros H b Hb. apply H. now right.
Qed.

(** X22: a registered transaction is verified: on the state after a
    registration, [verify_transaction] finds the returned transaction id,
    in a block whose number is at most the returned one, and in the new
    block itself when no earlier block has that id; what it answered before
    for any transaction id that it had found, it still answers. *)
Theorem blockchain_register_then_verify (use : bool) (calls : list Call)
  (c : Call) :
  let st := run_from (init use) calls in
  let r := fst (register st c) in
  let st' := snd (register st c) in
  (exists n ts h,
      verify_transaction st' (r_transaction_id r) = Verified n ts h
      /\ (n <= r_block_number r)%nat)
  /\ ((forall b, In b (mock_chain st) ->
                 transaction_id b <> r_transaction_id r) ->
      verify_transaction st' (r_transaction_id r)
      = Verified (r_block_number r) (r_timestamp r) (r_block_hash r))
  /\ (forall (tx : string) (n : nat) (ts h : string),
        verify_transaction st tx = Verified n ts h ->
        verify_transaction st' tx = Verified n ts h).
Proof.
  intros st r st'.
  destruct (run_invariant use calls) as (Hlen & Hlink & _).
  destruct (register_chain st c) as (Hc & Hn & _).
  fold st' in Hc. fold r in Hc, Hn. fold st in Hlen, Hlink.
  unfold verify_transaction. rewrite Hc.
  split; [|split].
  - rewrite find_transaction_app.
    destruct (find_transaction (mock_chain st) (r_transaction_id r))
      as [n ts h|] eqn:F.
    + exists n, ts, h. split; [reflexivity|].
      destruct (find_transaction_found _ _ _ _ _ F)
        as (i & b & Hi & _ & -> & _).
      destruct (linked_from_lookup _ _ _ Hlink i b Hi) as [-> _].
      assert (i < length (mock_chain st))%nat
        by (apply nth_error_Some; congruence).
      lia.
    + cbn [find_transaction transaction_id]. rewrite String.eqb_refl.
      eexists _, _, _. split; [reflexivity|]. cbn [block_number]. lia.
  - intros Hnew. rewrite find_transaction_app.
    rewrite (proj2 (find_transaction_none _ _) Hnew).
    cbn [find_transaction transaction_id]. rewrite String.eqb_refl.
    reflexivity.
  - intros tx n ts h F. rewrite find_transaction_app, F. reflexivity.
Qed.

(** X23: [verify_transaction] answers [{'verified': False}] exactly for
    the transaction ids that no block of the chain holds, and
    [get_chain_info] reports the number of registrations and, as genesis
    block, the block of the first registration, whatever was registered
    after it. *)
Theorem blockchain_chain_info (use : bool) (c : Call)
  (calls : list Call) :
  (forall (st : State) (tx : string),
      verify_transaction st tx = NotVerified
      <-> forall b, In b (mock_chain st) -> transaction_id b <> tx)
  /\ chain_length (get_chain_info (run_from (init use) (c :: calls)))
     = S (length calls)
  /\ genesis_block (get_chain_info (run_from (init use) (c :: calls)))
     = genesis_block (get_chain_info (run_from (init use) [c]))
  /\ is_Some (genesis_block
                (get_chain_info (run_from (init use) (c :: calls))))
  /\ genesis_block (get_chain_info (init use)) = None.
Proof.
  split; [intros st tx; apply find_transaction_none|].
  destruct (run_invariant use (c :: calls)) as (Hlen & _).
  split; [exact Hlen|].
  assert (Hprefix : forall (calls' : list Call) (st : State),
            exists l, mock_chain (run_from st calls')
                      = mock_chain st ++ l).
  { induction calls' as [|x calls' IH]; intros st.
    - exists []. rewrite app_nil_r. reflexivity.
    - rewrite run_cons.
      destruct (IH (snd (register st x))) as (l & Hl).
      destruct (register_chain st x) as (Hc & _).
      rewrite Hl, Hc, <- app_assoc. eexists. reflexivity. }
  rewrite run_cons.
  destruct (Hprefix calls (snd (register (init use) c))) as (l & Hl).
  unfold get_chain_info. cbn [genesis_block]. rewrite Hl.
  split; [reflexivity|]. split; [eexists; reflexivity | reflexivity].
Qed.

End BlockchainFacts.

(** A second registration with another clock reading, with the
    serialisation of a transaction standing for its hash. *)
Lemma blockchain_register_then_verify_witness :
  let sha := fun s : string => s in
  let dumps_tx := BlockchainTraceability.td_timestamp in
  let dumps_hdr := BlockchainTraceability.h_transaction_id in
  let c1 := {| BlockchainTraceability.call_now := "2025-01-01T00:00:00+00:00";
               BlockchainTraceability.call_fingerprint := Inputs.cand_AB;
               BlockchainTraceability.call_protection_flag := true;
               BlockchainTraceability.call_consent_status := true |} in
  let c2 := {| BlockchainTraceability.call_now := "2025-01-02T00:00:00+00:00";
               BlockchainTraceability.call_fingerprint := Inputs.cand_AB;
               BlockchainTraceability.call_protection_flag := false;
               BlockchainTraceability.call_consent_status := true |} in
  let st :=
    BlockchainTraceability.run sha dumps_tx dumps_hdr
      (BlockchainTraceability.init true) [c1] in
  BlockchainTraceability.verify_transaction
    (snd (BlockchainTraceability.register_fingerprint sha dumps_tx dumps_hdr
            st (BlockchainTraceability.call_now c2)
            (BlockchainTraceability.call_fingerprint c2)
            (BlockchainTraceability.call_protection_flag c2)
            (BlockchainTraceability.call_consent_status c2)))
    "2025-01-02T00:00:00+00:00"
  = BlockchainTraceability.Verified 1 "2025-01-02T00:00:00+00:00"
      "2025-01-02T00:00:00+00:00".
Proof.
  intros sha dumps_tx dumps_hdr c1 c2 st.
  apply (proj1 (proj2 (blockchain_register_then_verify sha dumps_tx dumps_hdr
                         true [c1] c2))).
  intros b [<-|[]]. vm_compute. discriminate.
Defined.
